(** * verification/verify_batch_tab.py: the batch-tab verification runner

    The script drives a browser through the synchronous Playwright API:
    it opens the application, switches to the "Batch Process" tab,
    uploads a fixture image, changes the width setting and takes a
    screenshot.  All of its behaviour is in the order of the library
    calls, in what happens when one of them raises, and in the
    [with] / [try] / [except] / [finally] structure around them.

    The embedding follows that structure.  Library calls are the
    constructors of [call], with the arguments the script passes.  What
    the outside world answers (does a call raise, is the element visible,
    how many elements match) is a [World].  The script is a computation
    in a state-and-exception monad whose state records what the run
    did: the console, the calls, the files written, the input values set
    and the life cycle of the browser. *)

From Stdlib Require Import String List ZArith Lia Bool.
Import ListNotations.
Open Scope string_scope.

(** ** The Playwright surface used by the script *)

Module Api.

(** [state=] argument of [wait_for_selector]. *)
Inductive wait_state := Attached | Detached | Visible | Hidden.

(** Locators are lazy descriptions of elements: building one performs no
    query and cannot raise. *)
Inductive locator :=
| Css (selector : string)                (* page.locator(selector) *)
| ByRole (role : string) (name : string) (* page.get_by_role(role, name=name) *)
| First (l : locator)                    (* l.first *)
| Nth (l : locator) (i : nat).           (* element i of l.all() *)

(** The calls that do something, with the arguments as the script gives
    them.  An optional keyword argument that the script leaves out is
    [None]. *)
Inductive call :=
| SyncPlaywrightEnter                    (* with sync_playwright() as p *)
| ChromiumLaunch                         (* p.chromium.launch() *)
| NewPage                                (* browser.new_page() *)
| Goto (url : string)                    (* page.goto(url) *)
| WaitForSelector (selector : string) (state : option wait_state)
                  (timeout : option Z)   (* page.wait_for_selector(...), ms *)
| Click (l : locator)                    (* l.click() *)
| SetInputFiles (selector : string) (file : string)
| IsVisible (l : locator)                (* l.is_visible() *)
| Fill (l : locator) (value : string)    (* l.fill(value) *)
| All (l : locator)                      (* l.all() *)
| Sleep (seconds : Z)                    (* time.sleep(seconds) *)
| Screenshot (path : string) (full_page : option bool)
| BrowserClose                           (* browser.close() *)
| SyncPlaywrightExit.                    (* leaving the with block *)

(** [page.screenshot] captures the whole scrollable page only when
    [full_page=True] is passed; the library default is the viewport. *)
Definition captures_full_page (c : call) : bool :=
  match c with
  | Screenshot _ (Some true) => true
  | _ => false
  end.

(** The path a screenshot call writes to. *)
Definition written_to (c : call) : option string :=
  match c with
  | Screenshot p _ => Some p
  | _ => None
  end.

Definition is_fill (c : call) : bool :=
  match c with Fill _ _ => true | _ => false end.


Definition is_screenshot (c : call) : bool :=
  match c with Screenshot _ _ => true | _ => false end.

(** What the environment answers.  A call that fails raises an error of
    the library, which is an [Exception]; interrupts and other
    [BaseException]s are outside the model. *)
Record World := {
  (** [Some msg]: the call raises an [Exception] whose text is [msg] *)
  raises : call -> option string;
  (** the value [is_visible()] returns for a locator *)
  visible : locator -> bool;
  (** the number of elements [all()] returns for a locator *)
  count : locator -> nat
}.

End Api.
Export Api.

(** ** Python: state, exceptions, [try] and [with] *)

Module Py.

Inductive browser_state := NotLaunched | Open | Closed.

(** What a run has done so far; every list is oldest first. *)
Record State := {
  console : list string;               (* lines printed *)
  trace : list call;                   (* library calls made *)
  files : list string;                 (* screenshot files written *)
  values : list (locator * string);    (* input values set by fill *)
  uploads : list (string * string);    (* files given to file inputs *)
  browser : browser_state;
  closings : nat                       (* times an open browser got closed *)
}.

Definition init : State :=
  {| console := []; trace := []; files := []; values := []; uploads := [];
     browser := NotLaunched; closings := 0 |}.

(** An exception remembers the call that raised it and its text. *)
Record exn := { exn_call : call; exn_msg : string }.

Inductive result (A : Type) :=
| Returned (a : A)
| Raised (e : exn).
Arguments Returned {A} a.
Arguments Raised {A} e.

Definition M (A : Type) : Type := State -> result A * State.

Definition ret {A} (a : A) : M A := fun s => (Returned a, s).

Definition bind {A B} (m : M A) (k : A -> M B) : M B :=
  fun s =>
    match m s with
    | (Returned a, s1) => k a s1
    | (Raised e, s1) => (Raised e, s1)
    end.

Declare Scope py_scope.
Delimit Scope py_scope with py.
Notation "x <- c1 ;; c2" := (bind c1 (fun x => c2))
  (at level 100, c1 at next level, right associativity) : py_scope.
Notation "c1 ;; c2" := (bind c1 (fun _ => c2))
  (at level 100, right associativity) : py_scope.
Open Scope py_scope.

(** [print(line)]; writing to the console is taken not to fail. *)
Definition print (line : string) : M unit :=
  fun s =>
    (Returned tt,
     {| console := console s ++ [line]; trace := trace s; files := files s;
        values := values s; uploads := uploads s; browser := browser s;
        closings := closings s |}).

Definition log (c : call) (s : State) : State :=
  {| console := console s; trace := trace s ++ [c]; files := files s;
     values := values s; uploads := uploads s; browser := browser s;
     closings := closings s |}.

(** An open browser becomes closed; anything else is left as it is. *)
Definition release (s : State) : State :=
  match browser s with
  | Open =>
      {| console := console s; trace := trace s; files := files s;
         values := values s; uploads := uploads s; browser := Closed;
         closings := S (closings s) |}
  | _ => s
  end.

(** What a call that returns has done. *)
Definition effect (c : call) (s : State) : State :=
  match c with
  | ChromiumLaunch =>
      {| console := console s; trace := trace s; files := files s;
         values := values s; uploads := uploads s; browser := Open;
         closings := closings s |}
  | Screenshot p _ =>
      {| console := console s; trace := trace s; files := files s ++ [p];
         values := values s; uploads := uploads s; browser := browser s;
         closings := closings s |}
  | Fill l v =>
      {| console := console s; trace := trace s; files := files s;
         values := values s ++ [(l, v)]; uploads := uploads s;
         browser := browser s; closings := closings s |}
  | SetInputFiles sel f =>
      {| console := console s; trace := trace s; files := files s;
         values := values s; uploads := uploads s ++ [(sel, f)];
         browser := browser s; closings := closings s |}
  | BrowserClose => release s
  | _ => s
  end.

Section WithWorld.

Variable w : World.

(** A library call: it is made, then either raises, leaving the state as
    it was, or returns after its effect. *)
Definition invoke (c : call) : M unit :=
  fun s =>
    match raises w c with
    | Some msg => (Raised {| exn_call := c; exn_msg := msg |}, log c s)
    | None => (Returned tt, effect c (log c s))
    end.

Definition is_visible (l : locator) : M bool :=
  invoke (IsVisible l) ;; ret (visible w l).

(** [l.all()] is the list [l.nth(0), ..., l.nth(n-1)]. *)
Definition all (l : locator) : M (list locator) :=
  invoke (All l) ;; ret (map (Nth l) (seq 0 (count w l))).

(** [try: body except Exception as e: handler(e) finally: final].
    [final] runs on every path; an exception of the handler, or of
    [final] itself, leaves the statement. *)
Definition try_except_finally (body : M unit) (handler : exn -> M unit)
    (final : M unit) : M unit :=
  fun s =>
    let '(r, s1) :=
      match body s with
      | (Returned a, s1) => (Returned a, s1)
      | (Raised e, s1) => handler e s1
      end in
    match final s1 with
    | (Returned _, s2) => (r, s2)
    | (Raised e, s2) => (Raised e, s2)
    end.

(** [with sync_playwright() as p: body].  If entering raises, nothing
    else happens.  Otherwise leaving the block stops the Playwright
    driver, on every path out of [body]; the driver takes a browser that
    is still open down with it.  The exit returns nothing and is taken
    not to raise, so the outcome of [body] is the outcome of the
    statement. *)
Definition with_sync_playwright {A} (body : M A) : M A :=
  fun s =>
    match invoke SyncPlaywrightEnter s with
    | (Raised e, s1) => (Raised e, s1)
    | (Returned _, s1) =>
        let '(r, s2) := body s1 in
        (r, release (log SyncPlaywrightExit s2))
    end.

End WithWorld.

(** The status the interpreter exits with after running a script whose
    last statement is the given call: 0, or 1 after an uncaught
    exception. *)
Definition exit_status {A} (r : result A) : Z :=
  match r with
  | Returned _ => 0
  | Raised _ => 1
  end.

End Py.
Export Py.

(** ** The script *)

Module Script.

(** The literals of the script that the statements below refer to. *)
Definition url : string := "http://localhost:3000".
Definition fixture : string := "test_image.png".
Definition success_path : string := "verification/batch_tab_verified.png".
Definition error_path : string := "verification/error.png".

(** [page.locator("input[value='1']").first] *)
Definition width_input : locator := First (Css "input[value='1']").
(** [page.locator(".space-y-1 input[type='number']")] *)
Definition panel_inputs : locator := Css ".space-y-1 input[type='number']".

Section WithWorld.

Variable w : World.

(** Lines 45-56: change the width.  [if inputs:] is the test that the
    list is not empty, [inputs[0]] its head. *)
Definition adjust_width : M unit :=
  let width_input := First (Css "input[value='1']") in
  v <- is_visible w width_input ;;
  if v then
    invoke w (Fill width_input "100") ;;
    print "Changed width to 100"
  else
    inputs <- all w (Css ".space-y-1 input[type='number']") ;;
    match inputs with
    | inputs_0 :: _ =>
        invoke w (Fill inputs_0 "100") ;;
        print "Changed width to 100 (fallback)"
    | [] =>
        print "Could not find width input"
    end.

(** Lines 11-64: the body of the [try]. *)
Definition steps : M unit :=
  print "Navigating to app..." ;;
  invoke w (Goto "http://localhost:3000") ;;
  invoke w (WaitForSelector "text=Image Modifier" None (Some 10000%Z)) ;;
  print "Clicking Batch Process tab..." ;;
  invoke w (Click (ByRole "tab" "Batch Process")) ;;
  invoke w (WaitForSelector "text=Batch Processing" (Some Visible) None) ;;
  print "Uploading image..." ;;
  invoke w (WaitForSelector "input[type='file']" (Some Attached) None) ;;
  invoke w (SetInputFiles "input[type='file']" "test_image.png") ;;
  print "Waiting for image to appear in list..." ;;
  invoke w (WaitForSelector "text=test_image" None (Some 5000%Z)) ;;
  print "Checking settings panel..." ;;
  invoke w (WaitForSelector "text=Image Settings" (Some Visible) None) ;;
  adjust_width ;;
  invoke w (Sleep 1) ;;
  let screenshot_path := "verification/batch_tab_verified.png" in
  invoke w (Screenshot screenshot_path None) ;;
  print ("Screenshot saved to " ++ screenshot_path).

(** Lines 66-68: [except Exception as e]. *)
Definition on_error (e : exn) : M unit :=
  print ("Error: " ++ exn_msg e) ;;
  invoke w (Screenshot "verification/error.png" None).

(** Lines 69-70: [finally]. *)
Definition cleanup : M unit :=
  invoke w BrowserClose.

(** Lines 5-70. *)
Definition verify_batch_tab : M unit :=
  with_sync_playwright w
    (invoke w ChromiumLaunch ;;
     invoke w NewPage ;;
     try_except_finally steps on_error cleanup).

(** Lines 72-73: the module run as a program. *)
Definition run : result unit * State := verify_batch_tab init.

Definition outcome : result unit := fst run.
Definition final : State := snd run.
Definition main : Z := exit_status outcome.

End WithWorld.

(** *** Worlds to run the script in *)

(** Nothing raises, [is_visible()] answers [vis], [all()] finds [n]
    elements. *)
Definition calm (vis : bool) (n : nat) : World :=
  {| raises := fun _ => None;
     visible := fun _ => vis;
     count := fun _ => n |}.

(** Nothing is listening on port 3000; the rest of the browser works. *)
Definition unreachable : World :=
  {| raises := fun c =>
       match c with
       | Goto _ => Some "net::ERR_CONNECTION_REFUSED"
       | _ => None
       end;
     visible := fun _ => false;
     count := fun _ => 0 |}.

(** The fixture file does not exist. *)
Definition no_fixture : World :=
  {| raises := fun c =>
       match c with
       | SetInputFiles _ _ => Some "ENOENT: test_image.png"
       | _ => None
       end;
     visible := fun _ => true;
     count := fun _ => 1 |}.

(** The page dies during navigation: from then on every call on the page
    raises, the handler's screenshot included. *)
Definition page_crash : World :=
  {| raises := fun c =>
       match c with
       | SyncPlaywrightEnter | ChromiumLaunch | NewPage | BrowserClose
       | SyncPlaywrightExit | Sleep _ => None
       | _ => Some "Target crashed"
       end;
     visible := fun _ => false;
     count := fun _ => 0 |}.

(** The browser starts, but no page can be opened. *)
Definition no_page : World :=
  {| raises := fun c =>
       match c with
       | NewPage => Some "Target closed"
       | _ => None
       end;
     visible := fun _ => true;
     count := fun _ => 1 |}.

(** The browser cannot be started. *)
Definition no_browser : World :=
  {| raises := fun c =>
       match c with
       | ChromiumLaunch => Some "Executable does not exist"
       | _ => None
       end;
     visible := fun _ => true;
     count := fun _ => 1 |}.

(** [browser.close()] raises; everything else works. *)
Definition close_fails : World :=
  {| raises := fun c =>
       match c with
       | BrowserClose => Some "Connection closed"
       | _ => None
       end;
     visible := fun _ => true;
     count := fun _ => 1 |}.

(** The width input is visible but cannot be filled. *)
Definition fill_fails : World :=
  {| raises := fun c =>
       match c with
       | Fill _ _ => Some "Timeout 30000ms exceeded"
       | _ => None
       end;
     visible := fun _ => true;
     count := fun _ => 1 |}.

(** The success screenshot cannot be written; the error one can. *)
Definition no_success_file : World :=
  {| raises := fun c =>
       match c with
       | Screenshot p _ =>
           if String.eqb p success_path then Some "EACCES" else None
       | _ => None
       end;
     visible := fun _ => true;
     count := fun _ => 1 |}.

End Script.
Export Script.

(** ** The steps as a plan

    The body of the [try] is a straight line of prints and calls, with
    one fork in the width adjustment.  [plan] is that line written out as
    data, with the fork resolved by what the world answers; [perform]
    runs such a line.  [steps_perform] ties the script to it, and the
    general facts about [perform] are then proved once, by induction on
    the plan. *)

Module Plan.

Inductive action :=
| Say (line : string)
| Do (c : call).

Definition calls_of (l : list action) : list call :=
  flat_map (fun a => match a with Do c => [c] | Say _ => [] end) l.

Definition lines_of (l : list action) : list string :=
  flat_map (fun a => match a with Say x => [x] | Do _ => [] end) l.

(** Files written by the screenshots among the calls. *)
Definition shots (cs : list call) : list string :=
  flat_map (fun c => match c with Screenshot p _ => [p] | _ => [] end) cs.

(** Values set by the fills among the calls. *)
Definition fills (cs : list call) : list (locator * string) :=
  flat_map (fun c => match c with Fill l v => [(l, v)] | _ => [] end) cs.

Definition sends (cs : list call) : list (string * string) :=
  flat_map (fun c => match c with SetInputFiles x f => [(x, f)] | _ => [] end) cs.

(** Calls that leave the life cycle of the browser alone. *)
Definition on_page (c : call) : bool :=
  match c with
  | ChromiumLaunch | BrowserClose | SyncPlaywrightExit => false
  | _ => true
  end.

(** Steps 2 to 8 of the contract. *)
Definition before_width : list action :=
  [ Say "Navigating to app...";
    Do (Goto url);
    Do (WaitForSelector "text=Image Modifier" None (Some 10000%Z));
    Say "Clicking Batch Process tab...";
    Do (Click (ByRole "tab" "Batch Process"));
    Do (WaitForSelector "text=Batch Processing" (Some Visible) None);
    Say "Uploading image...";
    Do (WaitForSelector "input[type='file']" (Some Attached) None);
    Do (SetInputFiles "input[type='file']" fixture);
    Say "Waiting for image to appear in list...";
    Do (WaitForSelector "text=test_image" None (Some 5000%Z));
    Say "Checking settings panel...";
    Do (WaitForSelector "text=Image Settings" (Some Visible) None) ].

(** Steps 10 and 11. *)
Definition after_width : list action :=
  [ Do (Sleep 1);
    Do (Screenshot success_path None);
    Say ("Screenshot saved to " ++ success_path) ].

Section WithWorld.

Variable w : World.

(** Step 9, in the three shapes it can take. *)
Definition width_plan : list action :=
  if visible w width_input then
    [ Do (IsVisible width_input);
      Do (Fill width_input "100");
      Say "Changed width to 100" ]
  else
    match count w panel_inputs with
    | S _ =>
        [ Do (IsVisible width_input);
          Do (All panel_inputs);
          Do (Fill (Nth panel_inputs 0) "100");
          Say "Changed width to 100 (fallback)" ]
    | O =>
        [ Do (IsVisible width_input);
          Do (All panel_inputs);
          Say "Could not find width input" ]
    end.

Definition plan : list action := before_width ++ width_plan ++ after_width.

Definition act (a : action) : M unit :=
  match a with
  | Say x => print x
  | Do c => invoke w c
  end.

Fixpoint perform (l : list action) : M unit :=
  match l with
  | [] => ret tt
  | a :: l' => act a ;; perform l'
  end.

(** The part of a plan that is carried out: everything up to and
    including the first call that raises. *)
Fixpoint executed (l : list action) : list action :=
  match l with
  | [] => []
  | Say x :: l' => Say x :: executed l'
  | Do c :: l' =>
      Do c :: match raises w c with
              | Some _ => []
              | None => executed l'
              end
  end.

(** The calls of a plan that are made and return. *)
Fixpoint returned (l : list action) : list call :=
  match l with
  | [] => []
  | Say _ :: l' => returned l'
  | Do c :: l' =>
      match raises w c with
      | Some _ => []
      | None => c :: returned l'
      end
  end.

(** The exception that ends a plan early, if any. *)
Fixpoint failure (l : list action) : option exn :=
  match l with
  | [] => None
  | Say _ :: l' => failure l'
  | Do c :: l' =>
      match raises w c with
      | Some msg => Some {| exn_call := c; exn_msg := msg |}
      | None => failure l'
      end
  end.

End WithWorld.

End Plan.
Export Plan.

(** ** Vocabulary for the statements *)

Module Spec.

(** The session is there: the driver started, the browser launched and
    the page opened. *)
Definition acquired (w : World) : Prop :=
  raises w SyncPlaywrightEnter = None /\
  raises w ChromiumLaunch = None /\
  raises w NewPage = None.

(** The browser launches. *)
Definition launched (w : World) : Prop :=
  raises w SyncPlaywrightEnter = None /\ raises w ChromiumLaunch = None.

(** The state in which the [try] statement is entered. *)
Definition ready : State :=
  {| console := [];
     trace := [SyncPlaywrightEnter; ChromiumLaunch; NewPage];
     files := []; values := []; uploads := [];
     browser := Open; closings := 0 |}.

(** A step raises [e]: the body of the [try], entered with the session
    there, ends with the exception [e]. *)
Definition step_failure (w : World) (e : exn) : Prop :=
  fst (steps w ready) = Raised e.

(** The success path: the body of the [try] runs to its end. *)
Definition steps_succeed (w : World) : Prop :=
  fst (steps w ready) = Returned tt.

(** The state in which the [try] statement of lines 10-70 is left, when
    it was entered with the session there; it is the state in which the
    [with] block is then left. *)
Definition after_try (w : World) : State :=
  snd (try_except_finally (steps w) (on_error w) (cleanup w) ready).

(** What the [except] clause does, when it runs. *)
Definition handled (w : World) : list action :=
  match failure w (plan w) with
  | Some e => [Say ("Error: " ++ exn_msg e); Do (Screenshot error_path None)]
  | None => []
  end.

(** How a run with a session ends: an exception of [browser.close()]
    wins, then one of the handler; an exception of a step never gets
    out. *)
Definition verdict (w : World) : result unit :=
  match raises w BrowserClose with
  | Some msg => Raised {| exn_call := BrowserClose; exn_msg := msg |}
  | None =>
      match failure w (handled w) with
      | Some e => Raised e
      | None => Returned tt
      end
  end.

(** Calls made only by the [except] and [finally] clauses. *)
Definition after_steps (c : call) : bool :=
  match c with
  | BrowserClose => true
  | Screenshot p _ => String.eqb p error_path
  | _ => false
  end.

(** The calls of the script, in the order of the text. *)
Definition all_calls (w : World) : list call :=
  ([SyncPlaywrightEnter; ChromiumLaunch; NewPage] ++ calls_of (plan w) ++
   [Screenshot error_path None; BrowserClose; SyncPlaywrightExit])%list.

(** Timeouts are given to the library in milliseconds. *)
Definition seconds (n : Z) : Z := n * 1000.

(** The lines that tell which way the width adjustment went. *)
Definition branch_line (x : string) : bool :=
  existsb (String.eqb x)
    ["Changed width to 100"; "Changed width to 100 (fallback)";
     "Could not find width input"].

(** The line that reports the success screenshot (line 64). *)
Definition saved_line : string :=
  "Screenshot saved to verification/batch_tab_verified.png".

(** What the upload of line 27 leaves behind. *)
Definition upload_entry : string * string :=
  ("input[type='file']", "test_image.png").

(** The failure conditions the specification lists: the target is
    unreachable, the fixture is missing, some step raises, or no width
    input is found. *)
Definition listed_failure (w : World) : Prop :=
  (exists e, step_failure w e) \/
  (visible w width_input = false /\ count w panel_inputs = 0).

(** *** Sentences of the specification that the script does not meet

    Each is written out as the specification has it, to be refuted on a
    concrete world further down. *)

(** C1, as the specification words it: after a failing step the message
    is on the console, the error screenshot is on disk and the exception
    does not come out. *)
Definition handler_always_saves (w : World) : Prop :=
  forall e, step_failure w e ->
    In ("Error: " ++ exn_msg e) (console (final w)) /\
    In error_path (files (final w)) /\
    outcome w <> Raised e.

(** C2, as the specification words it. *)
Definition never_raises (w : World) : Prop :=
  acquired w -> listed_failure w -> outcome w = Returned tt /\ main w = 0%Z.


(** C4, as the specification words it. *)
Definition one_screenshot (w : World) : Prop :=
  launched w ->
  files (final w) = [success_path] \/ files (final w) = [error_path].

(** C5, as the specification words it: the screenshot written to the
    success path is a capture of the whole scrollable page. *)
Definition full_page_capture (w : World) : Prop :=
  forall c, In c (trace (final w)) ->
    written_to c = Some success_path ->
    captures_full_page c = true.

End Spec.
Export Spec.

(** Give the literals of the script the names used in the statements. *)
Ltac name_literals :=
  change (First (Css "input[value='1']")) with width_input;
  change (Css ".space-y-1 input[type='number']") with panel_inputs;
  change "verification/error.png" with error_path;
  change "verification/batch_tab_verified.png" with success_path.

(** ** What performing a plan does *)

Section Perform.

Local Open Scope list_scope.

Variable w : World.

Lemma bind_ext {A B} (m : M A) (k1 k2 : A -> M B) (s : State) :
  (forall a s', k1 a s' = k2 a s') -> bind m k1 s = bind m k2 s.
Proof.
  intros Hk. unfold bind. destruct (m s) as [[a | e] s1]; auto.
Qed.

Lemma perform_app (l1 l2 : list action) (s : State) :
  perform w (l1 ++ l2) s = bind (perform w l1) (fun _ => perform w l2) s.
Proof.
  revert s. induction l1 as [| a l1 IH]; intros s.
  - reflexivity.
  - simpl. unfold bind.
    destruct (act w a s) as [[u | e] s1]; [| reflexivity].
    rewrite IH. reflexivity.
Qed.

Ltac plan_induction l s :=
  revert s; induction l as [| [x | c] l IH]; intros s; simpl;
  [ | unfold bind, print; simpl; rewrite IH; simpl
    | unfold bind, invoke; destruct (raises w c);
      [ | rewrite IH; destruct c ]; simpl ].

Lemma perform_result (l : list action) (s : State) :
  fst (perform w l s) =
  match failure w l with
  | Some e => Raised e
  | None => Returned tt
  end.
Proof.
  plan_induction l s; reflexivity.
Qed.

Lemma perform_trace (l : list action) (s : State) :
  trace (snd (perform w l s)) = trace s ++ calls_of (executed w l).
Proof.
  plan_induction l s; unfold release;
    try match goal with |- context [browser ?x] => destruct (browser x) end;
    simpl; rewrite <- ?app_assoc, ?app_nil_r; reflexivity.
Qed.

Lemma perform_console (l : list action) (s : State) :
  console (snd (perform w l s)) = console s ++ lines_of (executed w l).
Proof.
  plan_induction l s; unfold release;
    try match goal with |- context [browser ?x] => destruct (browser x) end;
    simpl; rewrite <- ?app_assoc, ?app_nil_r; reflexivity.
Qed.

Lemma perform_files (l : list action) (s : State) :
  files (snd (perform w l s)) = files s ++ shots (returned w l).
Proof.
  plan_induction l s; unfold release;
    try match goal with |- context [browser ?x] => destruct (browser x) end;
    simpl; rewrite <- ?app_assoc, ?app_nil_r; reflexivity.
Qed.

Lemma perform_values (l : list action) (s : State) :
  values (snd (perform w l s)) = values s ++ fills (returned w l).
Proof.
  plan_induction l s; unfold release;
    try match goal with |- context [browser ?x] => destruct (browser x) end;
    simpl; rewrite <- ?app_assoc, ?app_nil_r; reflexivity.
Qed.

Lemma perform_uploads (l : list action) (s : State) :
  uploads (snd (perform w l s)) = uploads s ++ sends (returned w l).
Proof.
  plan_induction l s; unfold release;
    try match goal with |- context [browser ?x] => destruct (browser x) end;
    simpl; rewrite <- ?app_assoc, ?app_nil_r; reflexivity.
Qed.

(** A plan of page calls leaves the browser as it found it. *)
Lemma perform_browser (l : list action) (s : State) :
  forallb on_page (calls_of l) = true ->
  browser (snd (perform w l s)) = browser s /\
  closings (snd (perform w l s)) = closings s.
Proof.
  revert s. induction l as [| [x | c] l IH]; intros s Hl; simpl.
  - auto.
  - unfold bind, print. simpl.
    match goal with |- browser (snd (perform w l ?s')) = _ /\ _ =>
      destruct (IH s' Hl) as [-> ->] end.
    auto.
  - simpl in Hl. apply andb_prop in Hl as [Hc Hl].
    unfold bind, invoke. destruct (raises w c); [auto |].
    destruct (IH (effect c (log c s)) Hl) as [-> ->].
    destruct c; simpl in *; auto; discriminate.
Qed.

End Perform.

(** ** The script performs its plan *)

Section Refinement.

Local Open Scope list_scope.

Variable w : World.

Lemma adjust_width_perform (k : M unit) (s : State) :
  bind (adjust_width w) (fun _ => k) s =
  bind (perform w (width_plan w)) (fun _ => k) s.
Proof.
  unfold adjust_width, width_plan, is_visible, all. name_literals.
  destruct (visible w width_input) eqn:Hv;
    [| destruct (count w panel_inputs) as [| n] eqn:Hn ];
    cbn [perform act]; unfold bind, invoke, ret, print;
    (destruct (raises w (IsVisible width_input)); [reflexivity |]);
    simpl.
  - destruct (raises w (Fill width_input "100")); reflexivity.
  - destruct (raises w (All panel_inputs)); [reflexivity |].
    reflexivity.
  - destruct (raises w (All panel_inputs)); [reflexivity |].
    simpl.
    destruct (raises w (Fill (Nth panel_inputs 0) "100")); reflexivity.
Qed.

Lemma steps_perform (s : State) : steps w s = perform w (plan w) s.
Proof.
  unfold steps, plan, before_width.
  cbn [app perform act].
  repeat (apply bind_ext; intros).
  rewrite perform_app, adjust_width_perform.
  apply bind_ext. intros _ s1. unfold after_width. cbn [perform act].
  repeat (apply bind_ext; intros).
  reflexivity.
Qed.

Lemma step_failure_plan (e : exn) :
  step_failure w e <-> failure w (plan w) = Some e.
Proof.
  unfold step_failure. rewrite steps_perform, perform_result.
  destruct (failure w (plan w)); split; congruence.
Qed.

Lemma steps_succeed_plan :
  steps_succeed w <-> failure w (plan w) = None.
Proof.
  unfold steps_succeed. rewrite steps_perform, perform_result.
  destruct (failure w (plan w)); split; congruence.
Qed.

End Refinement.

(** ** A whole run *)

Section Run.

Local Open Scope list_scope.

Variable w : World.
Hypothesis session : acquired w.

Lemma on_error_perform (e : exn) (s : State) :
  on_error w e s =
  perform w [Say ("Error: " ++ exn_msg e)%string;
             Do (Screenshot error_path None)] s.
Proof.
  unfold on_error. cbn [perform act]. apply bind_ext. intros _ s1.
  unfold bind, invoke, ret. name_literals.
  destruct (raises w (Screenshot error_path None)); reflexivity.
Qed.

(** The [try] statement, entered with the session there. *)
Lemma try_acquired :
  try_except_finally (steps w) (on_error w) (cleanup w) ready =
  (verdict w,
   {| console := lines_of (executed w (plan w) ++ executed w (handled w));
      trace := [SyncPlaywrightEnter; ChromiumLaunch; NewPage]
               ++ calls_of (executed w (plan w) ++ executed w (handled w))
               ++ [BrowserClose];
      files := shots (returned w (plan w) ++ returned w (handled w));
      values := fills (returned w (plan w));
      uploads := sends (returned w (plan w));
      browser := match raises w BrowserClose with
                 | None => Closed
                 | Some _ => Open
                 end;
      closings := match raises w BrowserClose with
                  | None => 1
                  | Some _ => 0
                  end |}).
Proof.
  unfold try_except_finally. rewrite steps_perform.
  assert (Hplan : forallb on_page (calls_of (plan w)) = true).
  { unfold plan, width_plan.
    destruct (visible w width_input); [| destruct (count w panel_inputs)];
      reflexivity. }
  pose proof (perform_result w (plan w) ready) as Hr.
  pose proof (perform_trace w (plan w) ready) as Ht.
  pose proof (perform_console w (plan w) ready) as Hc.
  pose proof (perform_files w (plan w) ready) as Hf.
  pose proof (perform_values w (plan w) ready) as Hv.
  pose proof (perform_uploads w (plan w) ready) as Hu.
  destruct (perform_browser w (plan w) ready Hplan) as [Hb Hk].
  destruct (perform w (plan w) ready) as [r1 s1].
  cbn [fst snd] in Hr, Ht, Hc, Hf, Hv, Hu, Hb, Hk.
  unfold verdict, handled, cleanup.
  destruct (failure w (plan w)) as [e |]; subst r1;
    generalize dependent (executed w (plan w));
    generalize dependent (returned w (plan w));
    intros rt Hf Hv Hu ex Ht Hc; clear Hplan.
  - rewrite on_error_perform. cbn [perform act].
    unfold bind, print, invoke, ret. simpl.
    destruct (raises w (Screenshot error_path None));
      destruct (raises w BrowserClose);
      destruct s1; simpl in *; subst;
      unfold release, log, calls_of, lines_of, shots;
      repeat progress (simpl; rewrite ?flat_map_app, <- ?app_assoc, ?app_nil_r);
      reflexivity.
  - unfold invoke.
    destruct (raises w BrowserClose);
      destruct s1; simpl in *; subst;
      unfold release, log, calls_of, lines_of, shots;
      repeat progress (simpl; rewrite ?flat_map_app, <- ?app_assoc, ?app_nil_r);
      reflexivity.
Qed.

(** With the session there, the run is the [try] statement followed by
    the exit of the [with] block. *)
Lemma run_after_try :
  run w =
  (fst (try_except_finally (steps w) (on_error w) (cleanup w) ready),
   release (log SyncPlaywrightExit (after_try w))).
Proof.
  destruct session as (Henter & Hlaunch & Hpage).
  unfold run, verify_batch_tab, with_sync_playwright, invoke at 1.
  rewrite Henter.
  unfold bind at 1, invoke at 1. rewrite Hlaunch.
  unfold bind at 1, invoke at 1. rewrite Hpage.
  change (effect NewPage (log NewPage (effect ChromiumLaunch
            (log ChromiumLaunch (effect SyncPlaywrightEnter
               (log SyncPlaywrightEnter init)))))) with ready.
  unfold after_try.
  destruct (try_except_finally (steps w) (on_error w) (cleanup w) ready).
  reflexivity.
Qed.

Lemma run_acquired :
  run w =
  (verdict w,
   {| console := lines_of (executed w (plan w) ++ executed w (handled w));
      trace := [SyncPlaywrightEnter; ChromiumLaunch; NewPage]
               ++ calls_of (executed w (plan w) ++ executed w (handled w))
               ++ [BrowserClose; SyncPlaywrightExit];
      files := shots (returned w (plan w) ++ returned w (handled w));
      values := fills (returned w (plan w));
      uploads := sends (returned w (plan w));
      browser := Closed;
      closings := 1 |}).
Proof.
  rewrite run_after_try. unfold after_try. rewrite try_acquired.
  cbn [fst snd].
  generalize (calls_of (executed w (plan w) ++ executed w (handled w))).
  intros cs.
  destruct (raises w BrowserClose); unfold release, log; simpl;
    rewrite <- !app_assoc; reflexivity.
Qed.

End Run.

(** ** Prefixes, failures and what is left undone *)

Section Executed.

Local Open Scope list_scope.

Variable w : World.

(** What is carried out is an initial part of the plan. *)
Lemma executed_prefix (l : list action) :
  exists rest, l = executed w l ++ rest.
Proof.
  induction l as [| [x | c] l [rest IH]]; simpl.
  - exists []. reflexivity.
  - exists rest. congruence.
  - destruct (raises w c).
    + exists l. reflexivity.
    + exists rest. congruence.
Qed.

(** A plan that fails stops with the call that raised: it is the last
    thing done, and every call before it returned. *)
Lemma failure_last (l : list action) (e : exn) :
  failure w l = Some e ->
  exists pre,
    executed w l = pre ++ [Do (exn_call e)] /\
    returned w l = calls_of pre /\
    raises w (exn_call e) = Some (exn_msg e).
Proof.
  induction l as [| [x | c] l IH]; simpl; intros H.
  - discriminate.
  - destruct (IH H) as (pre & -> & -> & Hr).
    exists (Say x :: pre). auto.
  - destruct (raises w c) as [msg |] eqn:Hc.
    + injection H as <-. exists []. auto.
    + destruct (IH H) as (pre & -> & -> & Hr).
      exists (Do c :: pre). auto.
Qed.

(** A plan without failure is carried out whole. *)
Lemma failure_none (l : list action) :
  failure w l = None ->
  executed w l = l /\ returned w l = calls_of l.
Proof.
  induction l as [| [x | c] l IH]; simpl; intros H.
  - auto.
  - destruct (IH H) as [-> ->]. auto.
  - destruct (raises w c); [discriminate |].
    destruct (IH H) as [-> ->]. auto.
Qed.

(** A plan none of whose calls raises does not fail. *)
Lemma no_failure (l : list action) :
  (forall c, In c (calls_of l) -> raises w c = None) ->
  failure w l = None.
Proof.
  induction l as [| [x | c] l IH]; simpl; intros H; auto.
  rewrite (H c) by auto. auto.
Qed.

Lemma failure_app (l1 l2 : list action) :
  failure w (l1 ++ l2) =
  match failure w l1 with
  | Some e => Some e
  | None => failure w l2
  end.
Proof.
  induction l1 as [| [x | c] l1 IH]; simpl; auto.
  destruct (raises w c); auto.
Qed.

Lemma returned_app (l1 l2 : list action) :
  returned w (l1 ++ l2) =
  returned w l1 ++
  match failure w l1 with
  | Some _ => []
  | None => returned w l2
  end.
Proof.
  induction l1 as [| [x | c] l1 IH]; simpl; auto.
  destruct (raises w c); simpl; congruence.
Qed.

(** The calls that returned are among the calls of the plan. *)
Lemma returned_forallb (p : call -> bool) (l : list action) :
  forallb p (calls_of l) = true -> forallb p (returned w l) = true.
Proof.
  induction l as [| [x | c] l IH]; simpl; auto.
  intros H. apply andb_prop in H as [Hc Hl].
  destruct (raises w c); simpl; auto. rewrite Hc. auto.
Qed.


Lemma executed_incl (l : list action) :
  incl (calls_of (executed w l)) (calls_of l).
Proof.
  destruct (executed_prefix l) as [rest H].
  rewrite H at 2. unfold calls_of. rewrite flat_map_app.
  apply incl_appl, incl_refl.
Qed.

End Executed.

Lemma shots_none (cs : list call) :
  forallb (fun c => negb (is_screenshot c)) cs = true -> shots cs = [].
Proof.
  induction cs as [| c cs IH]; simpl; auto.
  intros H. apply andb_prop in H as [Hc Hl].
  destruct c; simpl in *; auto; discriminate.
Qed.

Lemma fills_none (cs : list call) :
  forallb (fun c => negb (is_fill c)) cs = true -> fills cs = [].
Proof.
  induction cs as [| c cs IH]; simpl; auto.
  intros H. apply andb_prop in H as [Hc Hl].
  destruct c; simpl in *; auto; discriminate.
Qed.

Lemma shots_app (a b : list call) : shots (a ++ b) = (shots a ++ shots b)%list.
Proof. apply flat_map_app. Qed.

Lemma fills_app (a b : list call) : fills (a ++ b) = (fills a ++ fills b)%list.
Proof. apply flat_map_app. Qed.

Lemma calls_of_app (a b : list action) :
  calls_of (a ++ b) = (calls_of a ++ calls_of b)%list.
Proof. apply flat_map_app. Qed.

Lemma lines_of_app (a b : list action) :
  lines_of (a ++ b) = (lines_of a ++ lines_of b)%list.
Proof. apply flat_map_app. Qed.

Lemma filter_none {A} (p : A -> bool) (l : list A) :
  forallb (fun a => negb (p a)) l = true -> filter p l = [].
Proof.
  induction l as [| a l IH]; simpl; auto.
  intros H. apply andb_prop in H as [Ha Hl].
  destruct (p a); [discriminate | auto].
Qed.

Lemma NoDup_drop_middle {A} (a b c : list A) :
  NoDup (a ++ b ++ c) -> NoDup (a ++ c).
Proof.
  induction a as [| x a IH]; simpl; intros H.
  - apply NoDup_app_remove_l in H. exact H.
  - apply NoDup_cons_iff in H as [Hx Ha]. constructor; auto.
    rewrite !in_app_iff in *. tauto.
Qed.

(** ** Runs without a session *)

Section Setup.

Local Open Scope list_scope.

Variable w : World.

Lemma run_no_driver (msg : string) :
  raises w SyncPlaywrightEnter = Some msg ->
  run w =
  (Raised {| exn_call := SyncPlaywrightEnter; exn_msg := msg |},
   {| console := []; trace := [SyncPlaywrightEnter];
      files := []; values := []; uploads := [];
      browser := NotLaunched; closings := 0 |}).
Proof.
  intros H. unfold run, verify_batch_tab, with_sync_playwright, invoke at 1.
  rewrite H. reflexivity.
Qed.

Lemma run_no_browser (msg : string) :
  raises w SyncPlaywrightEnter = None ->
  raises w ChromiumLaunch = Some msg ->
  run w =
  (Raised {| exn_call := ChromiumLaunch; exn_msg := msg |},
   {| console := [];
      trace := [SyncPlaywrightEnter; ChromiumLaunch; SyncPlaywrightExit];
      files := []; values := []; uploads := [];
      browser := NotLaunched; closings := 0 |}).
Proof.
  intros H1 H2.
  unfold run, verify_batch_tab, with_sync_playwright, invoke at 1.
  rewrite H1. unfold bind at 1, invoke at 1. rewrite H2. reflexivity.
Qed.

Lemma run_no_page (msg : string) :
  raises w SyncPlaywrightEnter = None ->
  raises w ChromiumLaunch = None ->
  raises w NewPage = Some msg ->
  run w =
  (Raised {| exn_call := NewPage; exn_msg := msg |},
   {| console := [];
      trace := [SyncPlaywrightEnter; ChromiumLaunch; NewPage;
                SyncPlaywrightExit];
      files := []; values := []; uploads := [];
      browser := Closed; closings := 1 |}).
Proof.
  intros H1 H2 H3.
  unfold run, verify_batch_tab, with_sync_playwright, invoke at 1.
  rewrite H1. unfold bind at 1, invoke at 1. rewrite H2.
  unfold bind at 1, invoke at 1. rewrite H3. reflexivity.
Qed.

(** Every run either has its session or stops in one of the three ways
    above. *)
Lemma run_setup :
  acquired w \/
  (exists e,
     outcome w = Raised e /\
     console (final w) = [] /\ files (final w) = [] /\
     values (final w) = [] /\
     incl (trace (final w))
          [SyncPlaywrightEnter; ChromiumLaunch; NewPage; SyncPlaywrightExit]).
Proof.
  unfold outcome, final.
  destruct (raises w SyncPlaywrightEnter) as [m |] eqn:H1.
  { right. rewrite (run_no_driver m H1). eexists. simpl.
    repeat split. intros c [<- | []]. simpl. auto. }
  destruct (raises w ChromiumLaunch) as [m |] eqn:H2.
  { right. rewrite (run_no_browser m H1 H2). eexists. simpl.
    repeat split. intros c Hc. simpl in *. tauto. }
  destruct (raises w NewPage) as [m |] eqn:H3.
  { right. rewrite (run_no_page m H1 H2 H3). eexists. simpl.
    repeat split. intros c Hc. simpl in *. tauto. }
  left. repeat split; assumption.
Qed.

End Setup.

(** ** Facts about the plan of this script *)

Section PlanFacts.

Local Open Scope list_scope.

Variable w : World.

(** The three shapes of the width adjustment. *)
Lemma width_plan_cases :
  (visible w width_input = true /\
   width_plan w = [Do (IsVisible width_input);
                   Do (Fill width_input "100");
                   Say "Changed width to 100"]) \/
  (visible w width_input = false /\ count w panel_inputs <> 0 /\
   width_plan w = [Do (IsVisible width_input);
                   Do (All panel_inputs);
                   Do (Fill (Nth panel_inputs 0) "100");
                   Say "Changed width to 100 (fallback)"]) \/
  (visible w width_input = false /\ count w panel_inputs = 0 /\
   width_plan w = [Do (IsVisible width_input);
                   Do (All panel_inputs);
                   Say "Could not find width input"]).
Proof.
  unfold width_plan.
  destruct (visible w width_input); [auto |].
  destruct (count w panel_inputs); [auto |].
  right. left. auto.
Qed.

(** The only screenshot of the plan is its last call. *)
Lemma plan_shots :
  shots (returned w (plan w)) =
  match failure w (plan w) with
  | Some _ => []
  | None => [success_path]
  end.
Proof.
  unfold plan. rewrite !returned_app, !failure_app, shots_app.
  rewrite (shots_none (returned w before_width))
    by (apply returned_forallb; reflexivity).
  destruct (failure w before_width); [reflexivity |].
  rewrite shots_app, (shots_none (returned w (width_plan w))).
  2:{ apply returned_forallb.
      destruct width_plan_cases as [(_ & ->) | [(_ & _ & ->) | (_ & _ & ->)]];
        reflexivity. }
  destruct (failure w (width_plan w)); [reflexivity |].
  simpl. destruct (raises w (Sleep 1)); [reflexivity |].
  destruct (raises w (Screenshot success_path None)); reflexivity.
Qed.

(** The only fill of the plan is in the width adjustment. *)
Lemma plan_fills :
  fills (returned w (plan w)) =
  match failure w before_width with
  | Some _ => []
  | None => fills (returned w (width_plan w))
  end.
Proof.
  unfold plan. rewrite !returned_app, fills_app.
  rewrite (fills_none (returned w before_width))
    by (apply returned_forallb; reflexivity).
  destruct (failure w before_width); [reflexivity |].
  rewrite fills_app.
  destruct (failure w (width_plan w)); [apply app_nil_r |].
  rewrite (fills_none (returned w after_width)); [apply app_nil_r |].
  apply returned_forallb. reflexivity.
Qed.

End PlanFacts.

Lemma plan_before_handler (w : World) :
  forallb (fun c => negb (after_steps c)) (calls_of (plan w)) = true.
Proof.
  unfold plan.
  destruct (width_plan_cases w) as [(_ & ->) | [(_ & _ & ->) | (_ & _ & ->)]];
    reflexivity.
Qed.


(** What the [except] clause does after a failing step is fixed by the
    plan: one line on the console, one screenshot call. *)
Lemma handled_failure (w : World) (e : exn) :
  failure w (plan w) = Some e ->
  executed w (handled w) =
    [Say ("Error: " ++ exn_msg e); Do (Screenshot error_path None)] /\
  shots (returned w (handled w)) =
    match raises w (Screenshot error_path None) with
    | None => [error_path]
    | Some _ => []
    end /\
  failure w (handled w) =
    match raises w (Screenshot error_path None) with
    | None => None
    | Some msg =>
        Some {| exn_call := Screenshot error_path None; exn_msg := msg |}
    end.
Proof.
  intros H. unfold handled. rewrite H. simpl.
  destruct (raises w (Screenshot error_path None)); auto.
Qed.

Lemma handled_success (w : World) :
  failure w (plan w) = None -> handled w = [].
Proof. intros H. unfold handled. rewrite H. reflexivity. Qed.

(** What a run without failing step has done. *)
Lemma run_success (w : World) :
  acquired w ->
  failure w (plan w) = None ->
  trace (final w) =
    ([SyncPlaywrightEnter; ChromiumLaunch; NewPage] ++
     calls_of before_width ++ calls_of (width_plan w) ++
     [Sleep 1; Screenshot success_path None;
      BrowserClose; SyncPlaywrightExit])%list /\
  console (final w) = lines_of (plan w) /\
  files (final w) = [success_path].
Proof.
  intros Hs Hf. unfold final. rewrite (run_acquired w Hs).
  cbn [snd trace console files].
  destruct (failure_none w _ Hf) as [-> _].
  rewrite shots_app, plan_shots, Hf, (handled_success w Hf).
  simpl executed. rewrite !app_nil_r. repeat split.
  unfold plan. rewrite !calls_of_app, <- !app_assoc. reflexivity.
Qed.

(** A run in which no width input is found and nothing else fails. *)
Lemma give_up_run (w : World) :
  acquired w ->
  raises w (IsVisible width_input) = None ->
  visible w width_input = false ->
  raises w (All panel_inputs) = None ->
  count w panel_inputs = 0 ->
  failure w before_width = None ->
  failure w after_width = None ->
  values (final w) = [] /\
  In (Screenshot success_path None) (trace (final w)) /\
  files (final w) = [success_path] /\
  (raises w BrowserClose = None -> outcome w = Returned tt).
Proof.
  intros Hs Hvis Hv Hall Hn Hb Ha.
  assert (Hw : width_plan w =
               [Do (IsVisible width_input); Do (All panel_inputs);
                Say "Could not find width input"]).
  { destruct (width_plan_cases w)
      as [(? & _) | [(_ & ? & _) | (_ & _ & ?)]]; congruence. }
  assert (Hf : failure w (plan w) = None).
  { unfold plan. rewrite !failure_app, Hb, Ha, Hw. simpl.
    rewrite Hvis, Hall. reflexivity. }
  destruct (run_success w Hs Hf) as (Ht & _ & Hfiles).
  repeat split.
  - unfold final. rewrite (run_acquired w Hs). cbn [snd values].
    rewrite plan_fills, Hb, Hw. simpl. rewrite Hvis, Hall. reflexivity.
  - rewrite Ht, !in_app_iff. simpl. tauto.
  - exact Hfiles.
  - intros Hclose. unfold outcome. rewrite (run_acquired w Hs).
    cbn [fst]. unfold verdict.
    rewrite Hclose, (handled_success w Hf). reflexivity.
Qed.

Lemma executed_app (w : World) (l1 l2 : list action) :
  executed w (l1 ++ l2) =
  (executed w l1 ++
   match failure w l1 with
   | Some _ => []
   | None => executed w l2
   end)%list.
Proof.
  induction l1 as [| [x | c] l1 IH]; simpl; auto.
  - congruence.
  - destruct (raises w c); simpl; congruence.
Qed.

Lemma executed_lines (w : World) (p : string -> bool) (l : list action) :
  forallb (fun x => negb (p x)) (lines_of l) = true ->
  filter p (lines_of (executed w l)) = [].
Proof.
  intros H. apply filter_none.
  destruct (executed_prefix w l) as [rest Hrest].
  rewrite Hrest, lines_of_app, forallb_app in H.
  apply andb_prop in H as [H _]. exact H.
Qed.

(** ** Every call a run can make *)

Lemma all_calls_NoDup (w : World) : NoDup (all_calls w).
Proof.
  unfold all_calls, plan.
  destruct (width_plan_cases w) as [(_ & ->) | [(_ & _ & ->) | (_ & _ & ->)]];
    simpl; repeat (constructor; [simpl; intuition discriminate |]);
    constructor.
Qed.

Lemma trace_incl (w : World) : incl (trace (final w)) (all_calls w).
Proof.
  destruct (run_setup w) as [Hs | (e & _ & _ & _ & _ & Hin)].
  - unfold final. rewrite (run_acquired w Hs). cbn [snd trace].
    unfold all_calls. apply incl_app; [apply incl_appl, incl_refl |].
    apply incl_appr. rewrite calls_of_app.
    apply incl_app; [apply incl_app |].
    + apply incl_appl, executed_incl.
    + apply incl_appr. eapply incl_tran; [apply executed_incl |].
      unfold handled. destruct (failure w (plan w)); simpl.
      * intros c [<- | []]. simpl. auto.
      * intros c [].
    + apply incl_appr. intros c Hc. simpl in *. tauto.
  - eapply incl_tran; [exact Hin |].
    unfold all_calls. intros c Hc. rewrite !in_app_iff. simpl in *.
    intuition.
Qed.

Lemma trace_NoDup (w : World) : NoDup (trace (final w)).
Proof.
  unfold final.
  destruct (raises w SyncPlaywrightEnter) as [m |] eqn:H1.
  { rewrite (run_no_driver w m H1). simpl.
    repeat (constructor; [simpl; intuition discriminate |]). constructor. }
  destruct (raises w ChromiumLaunch) as [m |] eqn:H2.
  { rewrite (run_no_browser w m H1 H2). simpl.
    repeat (constructor; [simpl; intuition discriminate |]). constructor. }
  destruct (raises w NewPage) as [m |] eqn:H3.
  { rewrite (run_no_page w m H1 H2 H3). simpl.
    repeat (constructor; [simpl; intuition discriminate |]). constructor. }
  rewrite (run_acquired w (conj H1 (conj H2 H3))). cbn [snd trace].
  pose proof (all_calls_NoDup w) as Hall. unfold all_calls in Hall.
  destruct (executed_prefix w (plan w)) as [rest Hrest].
  rewrite calls_of_app.
  destruct (failure w (plan w)) as [e |] eqn:Hf.
  - destruct (handled_failure w e Hf) as (-> & _).
    rewrite Hrest, calls_of_app in Hall.
    generalize dependent (calls_of (executed w (plan w))).
    generalize (calls_of rest). intros rs ex Hall. clear Hrest.
    pose proof (NoDup_drop_middle
                  ([SyncPlaywrightEnter; ChromiumLaunch; NewPage] ++ ex) rs
                  [Screenshot error_path None; BrowserClose;
                   SyncPlaywrightExit]) as Hmid.
    rewrite <- app_assoc in Hall. rewrite <- app_assoc.
    simpl in Hmid, Hall |- *. exact (Hmid Hall).
  - rewrite (handled_success w Hf).
    destruct (failure_none w _ Hf) as [-> _]. clear Hrest.
    generalize dependent (calls_of (plan w)). intros cs Hall.
    pose proof (NoDup_drop_middle
                  ([SyncPlaywrightEnter; ChromiumLaunch; NewPage] ++ cs)
                  [Screenshot error_path None]
                  [BrowserClose; SyncPlaywrightExit]) as Hmid.
    simpl in Hmid, Hall |- *. rewrite app_nil_r. exact (Hmid Hall).
Qed.

(** * The specification, sentence by sentence *)

(** C1 fails when the handler's own screenshot raises.  In [page_crash]
    the page dies during [goto]: the handler prints its line, its
    screenshot call raises as well, no file is written and that second
    exception reaches the caller. *)
Lemma handler_always_saves_fails :
  acquired page_crash /\
  step_failure page_crash
    {| exn_call := Goto url; exn_msg := "Target crashed" |} /\
  files (final page_crash) = [] /\
  outcome page_crash =
    Raised {| exn_call := Screenshot error_path None;
              exn_msg := "Target crashed" |} /\
  ~ handler_always_saves page_crash.
Proof.
  repeat split; try reflexivity.
  intros H.
  destruct (H {| exn_call := Goto url; exn_msg := "Target crashed" |} eq_refl)
    as (_ & Hin & _).
  vm_compute in Hin. exact Hin.
Qed.

(** C1, amended.  When a step raises [e], with the session there:
    - the steps before it ran, the step that raised is the last step
      made, and the steps after it ([rest]) are not made;
    - the handler prints ["Error: "] followed by the text of [e] and
      calls [page.screenshot] with the path [verification/error.png]
      and no other argument; then come [browser.close()] and the exit
      of the [with] block, nothing else;
    - the file [verification/error.png] is the one file written if that
      screenshot call returns, and no file is written if it raises;
    - [e] itself never reaches the caller; the function returns when
      neither the handler's screenshot nor [browser.close()] raises;
      when the handler's screenshot raises and [browser.close()]
      returns, the screenshot's exception reaches the caller; when
      [browser.close()] raises, its exception does. *)
Theorem step_failure_is_handled (w : World) (e : exn) :
  acquired w ->
  step_failure w e ->
  exists before rest,
    plan w = (before ++ Do (exn_call e) :: rest)%list /\
    raises w (exn_call e) = Some (exn_msg e) /\
    console (final w) =
      (lines_of before ++ [("Error: " ++ exn_msg e)%string])%list /\
    trace (final w) =
      ([SyncPlaywrightEnter; ChromiumLaunch; NewPage] ++ calls_of before ++
       [exn_call e; Screenshot error_path None;
        BrowserClose; SyncPlaywrightExit])%list /\
    files (final w) =
      match raises w (Screenshot error_path None) with
      | None => [error_path]
      | Some _ => []
      end /\
    outcome w <> Raised e /\
    (raises w (Screenshot error_path None) = None ->
     raises w BrowserClose = None ->
     outcome w = Returned tt) /\
    (forall msg,
       raises w (Screenshot error_path None) = Some msg ->
       raises w BrowserClose = None ->
       outcome w =
         Raised {| exn_call := Screenshot error_path None;
                   exn_msg := msg |}) /\
    (forall msg,
       raises w BrowserClose = Some msg ->
       outcome w = Raised {| exn_call := BrowserClose; exn_msg := msg |}).
Proof.
  intros Hs Hf. apply step_failure_plan in Hf.
  destruct (failure_last w _ _ Hf) as (before & Hex & Hret & Hraise).
  destruct (executed_prefix w (plan w)) as [rest Hrest].
  destruct (handled_failure w e Hf) as (Hh & Hhs & Hhf).
  exists before, rest. unfold final, outcome.
  rewrite (run_acquired w Hs). cbn [fst snd console trace files].
  repeat split.
  - rewrite Hrest at 1. rewrite Hex, <- app_assoc. reflexivity.
  - exact Hraise.
  - rewrite lines_of_app, Hex, Hh, lines_of_app. simpl.
    rewrite app_nil_r. reflexivity.
  - rewrite calls_of_app, Hex, Hh, calls_of_app. simpl.
    rewrite <- !app_assoc. reflexivity.
  - rewrite shots_app, plan_shots, Hf, Hhs. reflexivity.
  - unfold verdict. rewrite Hhf.
    assert (Hc : after_steps (exn_call e) = false).
    { pose proof (plan_before_handler w) as Hp.
      rewrite forallb_forall in Hp.
      apply negb_true_iff, Hp.
      rewrite Hrest, Hex, !calls_of_app, !in_app_iff. simpl. auto. }
    destruct (raises w BrowserClose);
      [| destruct (raises w (Screenshot error_path None)) ];
      try discriminate; intros He; injection He as <-; discriminate.
  - intros Hshot Hclose. unfold verdict. rewrite Hhf, Hshot, Hclose.
    reflexivity.
  - intros msg Hshot Hclose. unfold verdict. rewrite Hhf, Hshot, Hclose.
    reflexivity.
  - intros msg Hclose. unfold verdict. rewrite Hclose. reflexivity.
Qed.

Lemma step_failure_is_handled_witness :
  (files (final unreachable) = [error_path] /\
   outcome unreachable = Returned tt) /\
  (files (final page_crash) = [] /\
   outcome page_crash =
     Raised {| exn_call := Screenshot error_path None;
               exn_msg := "Target crashed" |}).
Proof.
  destruct (step_failure_is_handled unreachable
              {| exn_call := Goto url;
                 exn_msg := "net::ERR_CONNECTION_REFUSED" |}
              (conj eq_refl (conj eq_refl eq_refl)) eq_refl)
    as (before & rest & _ & _ & _ & _ & Hfiles & _ & Hret & _).
  destruct (step_failure_is_handled page_crash
              {| exn_call := Goto url; exn_msg := "Target crashed" |}
              (conj eq_refl (conj eq_refl eq_refl)) eq_refl)
    as (before' & rest' & _ & _ & _ & _ & Hfiles' & _ & _ & Hshot & _).
  exact (conj (conj Hfiles (Hret eq_refl eq_refl))
           (conj Hfiles' (Hshot "Target crashed" eq_refl eq_refl))).
Defined.

(** C2 fails when the handler's screenshot raises too: in [page_crash]
    a step fails, the exception of the handler's screenshot reaches the
    caller and the interpreter exits with status 1. *)
Lemma never_raises_fails :
  acquired page_crash /\ listed_failure page_crash /\
  main page_crash = 1%Z /\
  ~ never_raises page_crash.
Proof.
  assert (Ha : acquired page_crash) by (repeat split; reflexivity).
  assert (Hl : listed_failure page_crash) by (left; eexists; reflexivity).
  repeat split; try assumption; try reflexivity.
  intros H. destruct (H Ha Hl) as [Hr _]. discriminate.
Qed.

(** C2, amended.  With the session there, whatever steps fail (target
    unreachable, fixture missing, any other step) or whether a width
    input is found, the function returns to its caller and the exit
    status is 0, provided that the handler's screenshot call and
    [browser.close()] do not raise.  When a step has failed and the
    handler's screenshot raises, an exception reaches the caller and the
    exit status is 1. *)
Theorem failures_are_swallowed (w : World) :
  acquired w ->
  (raises w (Screenshot error_path None) = None ->
   raises w BrowserClose = None ->
   outcome w = Returned tt /\ main w = 0%Z) /\
  (forall e msg,
     step_failure w e ->
     raises w (Screenshot error_path None) = Some msg ->
     (exists e', outcome w = Raised e') /\ main w = 1%Z).
Proof.
  intros Hs. unfold main, outcome. rewrite (run_acquired w Hs).
  cbn [fst]. unfold verdict. split.
  - intros Hshot Hclose. rewrite Hclose.
    destruct (failure w (plan w)) as [e |] eqn:Hf.
    + destruct (handled_failure w e Hf) as (_ & _ & ->).
      rewrite Hshot. auto.
    + rewrite (handled_success w Hf). auto.
  - intros e msg Hf Hshot. apply step_failure_plan in Hf.
    destruct (handled_failure w e Hf) as (_ & _ & ->). rewrite Hshot.
    destruct (raises w BrowserClose); split; eauto.
Qed.

Lemma failures_are_swallowed_witness :
  (outcome unreachable = Returned tt /\ main unreachable = 0%Z) /\
  (outcome no_fixture = Returned tt /\ main no_fixture = 0%Z) /\
  (outcome (calm false 0) = Returned tt /\ main (calm false 0) = 0%Z) /\
  main page_crash = 1%Z.
Proof.
  repeat apply conj.
  - apply (failures_are_swallowed unreachable);
      [repeat split | |]; reflexivity.
  - apply (failures_are_swallowed unreachable);
      [repeat split | |]; reflexivity.
  - apply (failures_are_swallowed no_fixture);
      [repeat split | |]; reflexivity.
  - apply (failures_are_swallowed no_fixture);
      [repeat split | |]; reflexivity.
  - apply (failures_are_swallowed (calm false 0));
      [repeat split | |]; reflexivity.
  - apply (failures_are_swallowed (calm false 0));
      [repeat split | |]; reflexivity.
  - apply (proj2 (failures_are_swallowed page_crash
                    (conj eq_refl (conj eq_refl eq_refl)))
             {| exn_call := Goto url; exn_msg := "Target crashed" |}
             "Target crashed"); reflexivity.
Defined.




(** C4 fails with "neither".  In [no_page] the browser launches and
    [new_page] raises, before the [try]: no screenshot is taken.  In
    [page_crash] the handler's screenshot raises: no file either. *)
Lemma one_screenshot_fails :
  launched no_page /\ files (final no_page) = [] /\
  ~ one_screenshot no_page /\
  launched page_crash /\ files (final page_crash) = [] /\
  ~ one_screenshot page_crash.
Proof.
  repeat split; try reflexivity.
  - intros H. destruct (H (conj eq_refl eq_refl)); discriminate.
  - intros H. destruct (H (conj eq_refl eq_refl)); discriminate.
Qed.

(** C4, amended.  No run writes more than one screenshot file, so never
    both.  With the session there, the file written is
    [verification/batch_tab_verified.png] when no step raised; when a
    step raised it is [verification/error.png] if the handler's
    screenshot call returns, and nothing if that call raises.  Without
    the page (the browser did not launch, or [new_page] raised) nothing
    is written. *)
Theorem at_most_one_screenshot (w : World) :
  length (files (final w)) <= 1 /\
  (acquired w -> steps_succeed w -> files (final w) = [success_path]) /\
  (acquired w -> forall e, step_failure w e ->
   files (final w) =
     match raises w (Screenshot error_path None) with
     | None => [error_path]
     | Some _ => []
     end) /\
  (~ acquired w -> files (final w) = []).
Proof.
  assert (Hfiles : acquired w ->
    files (final w) =
     match failure w (plan w) with
     | None => [success_path]
     | Some _ =>
         match raises w (Screenshot error_path None) with
         | None => [error_path]
         | Some _ => []
         end
     end).
  { intros Hs. unfold final. rewrite (run_acquired w Hs). cbn [snd files].
    rewrite shots_app, plan_shots.
    destruct (failure w (plan w)) as [e |] eqn:Hf.
    - destruct (handled_failure w e Hf) as (_ & -> & _). reflexivity.
    - rewrite (handled_success w Hf). reflexivity. }
  repeat apply conj.
  - destruct (run_setup w) as [Hs | (e & _ & _ & -> & _)]; [| simpl; lia].
    rewrite (Hfiles Hs).
    destruct (failure w (plan w));
      [destruct (raises w (Screenshot error_path None)) |]; simpl; lia.
  - intros Hs Hok. apply steps_succeed_plan in Hok.
    rewrite (Hfiles Hs), Hok. reflexivity.
  - intros Hs e He. apply step_failure_plan in He.
    rewrite (Hfiles Hs), He. reflexivity.
  - intros Hn. destruct (run_setup w) as [Hs | (e & _ & _ & -> & _)];
      [contradiction | reflexivity].
Qed.

Lemma at_most_one_screenshot_witness :
  files (final (calm true 1)) = [success_path] /\
  files (final unreachable) = [error_path] /\
  files (final page_crash) = [] /\
  files (final no_page) = [].
Proof.
  destruct (at_most_one_screenshot (calm true 1)) as (_ & H1 & _).
  destruct (at_most_one_screenshot unreachable) as (_ & _ & H2 & _).
  destruct (at_most_one_screenshot page_crash) as (_ & _ & H3 & _).
  destruct (at_most_one_screenshot no_page) as (_ & _ & _ & H4).
  repeat apply conj.
  - apply H1; [repeat split |]; reflexivity.
  - apply (H2 (conj eq_refl (conj eq_refl eq_refl))
              {| exn_call := Goto url;
                 exn_msg := "net::ERR_CONNECTION_REFUSED" |}).
    reflexivity.
  - apply (H3 (conj eq_refl (conj eq_refl eq_refl))
              {| exn_call := Goto url; exn_msg := "Target crashed" |}).
    reflexivity.
  - apply H4. intros (_ & _ & H). discriminate.
Defined.

(** C5 fails on every successful run, for instance when nothing raises
    and the width input is visible: the script passes [path=] and
    nothing else, so the capture is the viewport. *)
Lemma full_page_capture_fails :
  acquired (calm true 1) /\
  steps_succeed (calm true 1) /\
  In (Screenshot success_path None) (trace (final (calm true 1))) /\
  captures_full_page (Screenshot success_path None) = false /\
  ~ full_page_capture (calm true 1).
Proof.
  assert (Hin : In (Screenshot success_path None)
                   (trace (final (calm true 1)))).
  { vm_compute. tauto. }
  split; [repeat split; reflexivity |].
  split; [vm_compute; reflexivity |].
  split; [exact Hin |].
  split; [reflexivity |].
  intros H. specialize (H _ Hin eq_refl). discriminate.
Qed.

(** C5, amended.  On the success path (session there, no step raises)
    the last call on the page is [page.screenshot] with the path
    [verification/batch_tab_verified.png] and no other argument, so
    with the library's default, the viewport, not the full page.  It is
    the only screenshot of the run and the file at that path is the one
    file written; the line that reports it is printed last. *)
Theorem success_screenshot (w : World) :
  acquired w ->
  steps_succeed w ->
  exists earlier,
    trace (final w) =
      (earlier ++ [Screenshot success_path None;
                   BrowserClose; SyncPlaywrightExit])%list /\
    filter is_screenshot earlier = [] /\
    success_path = "verification/batch_tab_verified.png" /\
    captures_full_page (Screenshot success_path None) = false /\
    files (final w) = [success_path] /\
    exists lines,
      console (final w) =
        (lines ++ ["Screenshot saved to verification/batch_tab_verified.png"])%list.
Proof.
  intros Hs Hf. apply steps_succeed_plan in Hf.
  destruct (run_success w Hs Hf) as (Ht & Hc & Hfiles).
  exists ([SyncPlaywrightEnter; ChromiumLaunch; NewPage] ++
          calls_of before_width ++ calls_of (width_plan w) ++ [Sleep 1])%list.
  rewrite Ht, Hc, Hfiles. unfold plan.
  destruct (width_plan_cases w) as [(_ & ->) | [(_ & _ & ->) | (_ & _ & ->)]];
    repeat split; eexists (_ :: _ :: _ :: _ :: _ :: _ :: nil); reflexivity.
Qed.

Lemma success_screenshot_witness :
  files (final (calm false 2)) = ["verification/batch_tab_verified.png"] /\
  captures_full_page (Screenshot success_path None) = false.
Proof.
  destruct (success_screenshot (calm false 2)
              (conj eq_refl (conj eq_refl eq_refl)) eq_refl)
    as (earlier & _ & _ & _ & Hcap & Hfiles & _).
  exact (conj Hfiles Hcap).
Defined.

(** C6.  The width adjustment (lines 45-56), from any state, with the
    look-ups themselves not raising:
    - if [input[value='1']], first match, is visible, it is filled with
      ["100"] and nothing else is touched;
    - otherwise the inputs matching [.space-y-1 input[type='number']]
      are listed, and if there is one, the first of them is filled with
      ["100"];
    - otherwise no value changes, the one thing that happens after the
      two look-ups is the line ["Could not find width input"], the step
      returns, and a run whose other steps do not raise goes on to the
      success screenshot. *)
Theorem width_fallback_chain (w : World) (s : State) :
  raises w (IsVisible width_input) = None ->
  (visible w width_input = true ->
   raises w (Fill width_input "100") = None ->
   fst (adjust_width w s) = Returned tt /\
   values (snd (adjust_width w s)) = (values s ++ [(width_input, "100")])%list /\
   trace (snd (adjust_width w s)) =
     (trace s ++ [IsVisible width_input; Fill width_input "100"])%list /\
   console (snd (adjust_width w s)) =
     (console s ++ ["Changed width to 100"])%list) /\
  (visible w width_input = false ->
   raises w (All panel_inputs) = None ->
   (count w panel_inputs <> 0 ->
    raises w (Fill (Nth panel_inputs 0) "100") = None ->
    fst (adjust_width w s) = Returned tt /\
    values (snd (adjust_width w s)) =
      (values s ++ [(Nth panel_inputs 0, "100")])%list /\
    trace (snd (adjust_width w s)) =
      (trace s ++ [IsVisible width_input; All panel_inputs;
                   Fill (Nth panel_inputs 0) "100"])%list /\
    console (snd (adjust_width w s)) =
      (console s ++ ["Changed width to 100 (fallback)"])%list) /\
   (count w panel_inputs = 0 ->
    fst (adjust_width w s) = Returned tt /\
    values (snd (adjust_width w s)) = values s /\
    trace (snd (adjust_width w s)) =
      (trace s ++ [IsVisible width_input; All panel_inputs])%list /\
    console (snd (adjust_width w s)) =
      (console s ++ ["Could not find width input"])%list /\
    (acquired w ->
     (forall c, In c (calls_of before_width ++ calls_of after_width) ->
                raises w c = None) ->
     values (final w) = [] /\
     In (Screenshot success_path None) (trace (final w)) /\
     files (final w) = [success_path] /\
     (raises w BrowserClose = None -> outcome w = Returned tt)))).
Proof.
  intros Hvis. split; [| intros Hv Hall; split].
  - intros Hv Hfill.
    unfold adjust_width, is_visible, all, bind, invoke, ret, print.
    name_literals.
    rewrite Hvis, Hv, Hfill. simpl. rewrite <- !app_assoc. repeat split.
  - intros Hn Hfill.
    unfold adjust_width, is_visible, all, bind, invoke, ret, print.
    name_literals.
    rewrite Hvis, Hv, Hall.
    destruct (count w panel_inputs); [congruence |].
    simpl. unfold panel_inputs in Hfill |- *. rewrite Hfill. simpl.
    rewrite <- !app_assoc. repeat split.
  - intros Hn. split; [| split; [| split; [| split]]].
    5: { intros Hs Hrest.
         apply give_up_run; try assumption; apply no_failure;
           intros c Hc; apply Hrest, in_or_app; auto. }
    all: unfold adjust_width, is_visible, all, bind, invoke, ret, print;
      name_literals; rewrite Hvis, Hv, Hall, Hn; simpl; rewrite <- ?app_assoc; reflexivity.
Qed.

Lemma width_fallback_chain_witness :
  values (snd (adjust_width (calm true 1) init)) = [(width_input, "100")] /\
  values (snd (adjust_width (calm false 2) init)) =
    [(Nth panel_inputs 0, "100")] /\
  values (snd (adjust_width (calm false 0) init)) = [] /\
  console (snd (adjust_width (calm false 0) init)) =
    ["Could not find width input"] /\
  files (final (calm false 0)) = [success_path].
Proof.
  destruct (width_fallback_chain (calm true 1) init eq_refl) as [Hfirst _].
  destruct (Hfirst eq_refl eq_refl) as (_ & H1 & _).
  destruct (width_fallback_chain (calm false 2) init eq_refl) as [_ Hsecond].
  destruct (Hsecond eq_refl eq_refl) as [Hsecond' _].
  destruct (Hsecond' (fun H => O_S 1 (eq_sym H)) eq_refl) as (_ & H2 & _).
  destruct (width_fallback_chain (calm false 0) init eq_refl) as [_ Hthird].
  destruct (Hthird eq_refl eq_refl) as [_ Hthird'].
  destruct (Hthird' eq_refl) as (_ & H3 & _ & H4 & Hrun).
  destruct (Hrun (conj eq_refl (conj eq_refl eq_refl)) (fun _ _ => eq_refl))
    as (_ & _ & H5 & _).
  repeat split; assumption.
Defined.

(** C7.  In every run, a wait for ["text=Image Modifier"] carries
    [timeout=10000], ten seconds, and a wait for ["text=test_image"],
    the name of the fixture without its extension, carries
    [timeout=5000], five seconds; the waits for ["text=Batch
    Processing"] and ["text=Image Settings"] pass no timeout, which
    leaves the library's default in force.  On the success path all
    four waits are made. *)
Theorem wait_timeouts (w : World) :
  (forall sel st t,
     In (WaitForSelector sel st t) (trace (final w)) ->
     (sel = "text=Image Modifier" -> t = Some (seconds 10)) /\
     (sel = "text=test_image" -> t = Some (seconds 5)) /\
     (sel = "text=Batch Processing" \/ sel = "text=Image Settings" ->
      t = None)) /\
  ("text=" ++ fixture = "text=test_image" ++ ".png")%string /\
  (acquired w -> steps_succeed w ->
   In (WaitForSelector "text=Image Modifier" None (Some (seconds 10)))
      (trace (final w)) /\
   In (WaitForSelector "text=test_image" None (Some (seconds 5)))
      (trace (final w)) /\
   In (WaitForSelector "text=Batch Processing" (Some Visible) None)
      (trace (final w)) /\
   In (WaitForSelector "text=Image Settings" (Some Visible) None)
      (trace (final w))).
Proof.
  split; [| split; [reflexivity |]].
  - intros sel st t Hin. apply trace_incl in Hin.
    unfold all_calls, plan in Hin.
    destruct (width_plan_cases w)
      as [(_ & Hw) | [(_ & _ & Hw) | (_ & _ & Hw)]];
      rewrite Hw in Hin; simpl in Hin;
      repeat (destruct Hin as [Hin | Hin]; try discriminate Hin);
      try contradiction;
      injection Hin as <- <- <-;
      (split; [| split]); intros Hsel;
      try discriminate Hsel; try reflexivity;
      destruct Hsel as [Hsel | Hsel]; try discriminate Hsel; reflexivity.
  - intros Hs Hf. apply steps_succeed_plan in Hf.
    destruct (run_success w Hs Hf) as (-> & _).
    simpl. repeat split; tauto.
Qed.

Lemma wait_timeouts_witness :
  In (WaitForSelector "text=Image Modifier" None (Some 10000%Z))
     (trace (final (calm true 1))) /\
  In (WaitForSelector "text=test_image" None (Some 5000%Z))
     (trace (final (calm true 1))) /\
  (forall t, In (WaitForSelector "text=Image Modifier" None t)
               (trace (final unreachable)) -> t = Some 10000%Z).
Proof.
  destruct (wait_timeouts (calm true 1)) as (_ & _ & Hmade).
  destruct (Hmade (conj eq_refl (conj eq_refl eq_refl)) eq_refl)
    as (H1 & H2 & _).
  destruct (wait_timeouts unreachable) as (Hall & _).
  refine (conj H1 (conj H2 _)).
  intros t Hin. exact (proj1 (Hall _ _ _ Hin) eq_refl).
Defined.



(** C9.  The [except] clause guards the steps and nothing before them.
    When the driver has started, an exception of [p.chromium.launch()]
    or of [browser.new_page()] reaches the caller as it is: nothing is
    printed, no screenshot is written, and [browser.close()] is not
    called (after a failed [new_page] the calls made are exactly the
    three of the set-up and the exit of the [with] block).  Once the page
    exists, an exception that reaches the caller comes from the
    handler's screenshot or from [browser.close()], the two calls the
    [except] clause does not guard, never from a call of the [try]
    body. *)
Theorem setup_failures_escape (w : World) (msg : string) :
  raises w SyncPlaywrightEnter = None ->
  (raises w ChromiumLaunch = Some msg ->
   outcome w = Raised {| exn_call := ChromiumLaunch; exn_msg := msg |} /\
   console (final w) = [] /\ files (final w) = [] /\
   ~ In BrowserClose (trace (final w))) /\
  (raises w ChromiumLaunch = None -> raises w NewPage = Some msg ->
   outcome w = Raised {| exn_call := NewPage; exn_msg := msg |} /\
   console (final w) = [] /\ files (final w) = [] /\
   trace (final w) =
     [SyncPlaywrightEnter; ChromiumLaunch; NewPage; SyncPlaywrightExit] /\
   ~ In BrowserClose (trace (final w))) /\
  (raises w ChromiumLaunch = None -> raises w NewPage = None ->
   forall e, outcome w = Raised e ->
     exn_call e = Screenshot error_path None \/ exn_call e = BrowserClose).
Proof.
  intros Henter. unfold outcome, final. repeat split.
  1-4: rewrite (run_no_browser w msg Henter H); simpl; auto.
  1: intros [Hc | [Hc | [Hc | []]]]; discriminate.
  1-5: rewrite (run_no_page w msg Henter H H0); simpl; auto.
  1: intros [Hc | [Hc | [Hc | [Hc | []]]]]; discriminate.
  intros Hlaunch Hpage e.
  rewrite (run_acquired w (conj Henter (conj Hlaunch Hpage))). simpl.
  intros He.
  unfold verdict, handled in He.
  destruct (raises w BrowserClose).
  - injection He as <-. auto.
  - destruct (failure w (plan w)); simpl in He; [| discriminate].
    destruct (raises w (Screenshot error_path None)); [| discriminate].
    injection He as <-. auto.
Qed.

Lemma setup_failures_escape_witness :
  outcome no_page = Raised {| exn_call := NewPage; exn_msg := "Target closed" |} /\
  ~ In BrowserClose (trace (final no_page)) /\
  outcome no_browser =
    Raised {| exn_call := ChromiumLaunch;
              exn_msg := "Executable does not exist" |}.
Proof.
  destruct (setup_failures_escape no_page "Target closed" eq_refl)
    as (_ & Hpage & _).
  destruct (Hpage eq_refl eq_refl) as (H1 & _ & _ & _ & H2).
  destruct (setup_failures_escape no_browser "Executable does not exist"
              eq_refl) as (Hlaunch & _).
  destruct (Hlaunch eq_refl) as (H3 & _).
  repeat split; assumption.
Defined.

(** C10.  In every run at most one value is set by [fill], by at most
    one [fill] call; at most one of the three lines that report the
    branch taken is printed, so the branches exclude each other; and
    when the first [input[value='1']] is visible the panel inputs are
    neither listed nor filled.  (The upload is a separate step and goes
    through [set_input_files], not [fill].) *)
Theorem one_value_changed (w : World) :
  length (values (final w)) <= 1 /\
  length (filter is_fill (trace (final w))) <= 1 /\
  length (filter branch_line (console (final w))) <= 1 /\
  (visible w width_input = true ->
   forall c, In c (trace (final w)) ->
     c <> All panel_inputs /\
     forall i v, c <> Fill (Nth panel_inputs i) v).
Proof.
  repeat apply conj.
  - destruct (run_setup w) as [Hs | (e & _ & _ & _ & -> & _)];
      [| simpl; lia].
    unfold final. rewrite (run_acquired w Hs). cbn [snd values].
    rewrite plan_fills. destruct (failure w before_width); [simpl; lia |].
    destruct (width_plan_cases w)
      as [(_ & Hw) | [(_ & _ & Hw) | (_ & _ & Hw)]];
      rewrite Hw; simpl;
      repeat match goal with
             | |- context [raises w ?c] => destruct (raises w c); simpl
             end; lia.
  - assert (Hle : length (filter is_fill (all_calls w)) <= 1).
    { unfold all_calls, plan.
      destruct (width_plan_cases w)
        as [(_ & Hw) | [(_ & _ & Hw) | (_ & _ & Hw)]];
        rewrite Hw; simpl; lia. }
    eapply Nat.le_trans; [| exact Hle].
    apply NoDup_incl_length.
    + apply NoDup_filter, trace_NoDup.
    + intros c Hc. apply filter_In in Hc as [Hc Hfill].
      apply filter_In. split; [apply trace_incl, Hc | exact Hfill].
  - destruct (run_setup w) as [Hs | (e & _ & -> & _)]; [| simpl; lia].
    unfold final. rewrite (run_acquired w Hs). cbn [snd console].
    rewrite lines_of_app, filter_app.
    assert (Hh : filter branch_line (lines_of (executed w (handled w))) = []).
    { unfold handled. destruct (failure w (plan w)); [| reflexivity].
      simpl. destruct (raises w (Screenshot error_path None)); reflexivity. }
    rewrite Hh, app_nil_r. unfold plan.
    rewrite executed_app, lines_of_app, filter_app.
    rewrite (executed_lines w branch_line before_width) by reflexivity.
    destruct (failure w before_width); [simpl; lia |].
    rewrite executed_app, lines_of_app, filter_app.
    assert (Ha : filter branch_line (lines_of (executed w after_width)) = [])
      by (apply executed_lines; reflexivity).
    assert (Hw : length (filter branch_line
                           (lines_of (executed w (width_plan w)))) <= 1).
    { destruct (width_plan_cases w)
        as [(_ & Hw) | [(_ & _ & Hw) | (_ & _ & Hw)]];
        rewrite Hw; simpl;
        repeat match goal with
               | |- context [raises w ?c] => destruct (raises w c); simpl
               end; lia. }
    destruct (failure w (width_plan w));
      rewrite ?Ha, ?app_nil_r; simpl; exact Hw.
  - intros Hv c Hin. apply trace_incl in Hin.
    unfold all_calls, plan in Hin.
    destruct (width_plan_cases w)
      as [(_ & Hw) | [(Hv' & _) | (Hv' & _)]]; try congruence.
    rewrite Hw in Hin. simpl in Hin.
    repeat (destruct Hin as [<- | Hin]; [split; [| intros i v]; discriminate |]).
    contradiction.
Qed.

Lemma one_value_changed_witness :
  ~ In (All panel_inputs) (trace (final (calm true 1))) /\
  length (values (final (calm true 1))) <= 1.
Proof.
  destruct (one_value_changed (calm true 1)) as (Hvalues & _ & _ & Hpanel).
  split; [| exact Hvalues].
  intros Hin. exact (proj1 (Hpanel eq_refl _ Hin) eq_refl).
Defined.

(** * Further properties of the script *)

Lemma sends_none (cs : list call) :
  forallb (fun c => match c with SetInputFiles _ _ => false | _ => true end)
    cs = true ->
  sends cs = [].
Proof.
  induction cs as [| c cs IH]; simpl; auto.
  intros H. apply andb_prop in H as [Hc Hl].
  destruct c; simpl in *; auto; discriminate.
Qed.

Lemma sends_app (a b : list call) : sends (a ++ b) = (sends a ++ sends b)%list.
Proof. apply flat_map_app. Qed.

(** The call that makes a plan fail is one of its calls. *)
Lemma failure_in (w : World) (l : list action) (e : exn) :
  failure w l = Some e -> In (exn_call e) (calls_of l).
Proof.
  intros H. destruct (failure_last w l e H) as (pre & Hex & _).
  apply (executed_incl w l). rewrite Hex, calls_of_app, in_app_iff.
  simpl. auto.
Qed.

(** Where a failure of the plan lies: before, in or after the width
    adjustment. *)
Lemma plan_failure_cases (w : World) (e : exn) :
  failure w (plan w) = Some e ->
  failure w before_width = Some e \/
  (failure w before_width = None /\ failure w (width_plan w) = Some e) \/
  (failure w before_width = None /\ failure w (width_plan w) = None /\
   failure w after_width = Some e).
Proof.
  unfold plan. rewrite !failure_app.
  destruct (failure w before_width); [auto |].
  destruct (failure w (width_plan w)); auto.
Qed.

(** X1.  Whatever exception reaches the caller is the library's own: it
    was raised by a call the run really made, and it carries the text
    the library gave it.  Nothing is wrapped, re-worded or invented. *)
Theorem raised_is_genuine (w : World) (e : exn) :
  outcome w = Raised e ->
  raises w (exn_call e) = Some (exn_msg e) /\
  In (exn_call e) (trace (final w)).
Proof.
  unfold outcome, final.
  destruct (raises w SyncPlaywrightEnter) as [m |] eqn:H1.
  { rewrite (run_no_driver w m H1). simpl. intros H. injection H as <-.
    simpl. auto. }
  destruct (raises w ChromiumLaunch) as [m |] eqn:H2.
  { rewrite (run_no_browser w m H1 H2). simpl. intros H. injection H as <-.
    simpl. auto. }
  destruct (raises w NewPage) as [m |] eqn:H3.
  { rewrite (run_no_page w m H1 H2 H3). simpl. intros H. injection H as <-.
    simpl. auto. }
  rewrite (run_acquired w (conj H1 (conj H2 H3))). cbn [fst snd trace].
  unfold verdict.
  destruct (raises w BrowserClose) as [m |] eqn:Hclose.
  { intros H. injection H as <-. cbn [exn_call exn_msg].
    split; [exact Hclose |].
    apply in_or_app. right. apply in_or_app. right. simpl. auto. }
  destruct (failure w (plan w)) as [e0 |] eqn:Hf;
    [| rewrite (handled_success w Hf); discriminate].
  destruct (handled_failure w e0 Hf) as (Hex & _ & ->).
  destruct (raises w (Screenshot error_path None)) as [m |] eqn:Hshot;
    [| discriminate].
  intros H. injection H as <-. cbn [exn_call exn_msg].
  split; [exact Hshot |].
  apply in_or_app. right. apply in_or_app. left.
  rewrite calls_of_app, Hex. apply in_or_app. right. simpl. auto.
Qed.

Lemma raised_is_genuine_witness :
  raises page_crash (Screenshot error_path None) = Some "Target crashed" /\
  In (Screenshot error_path None) (trace (final page_crash)).
Proof.
  exact (raised_is_genuine page_crash
           {| exn_call := Screenshot error_path None;
              exn_msg := "Target crashed" |} eq_refl).
Defined.

(** X2.  The [with] block (line 6).  If [sync_playwright()] cannot be
    entered, its exception reaches the caller and nothing else happens:
    no browser, no page, no exit.  If it is entered, the run starts with
    it and ends with the exit of the block, on every path, and the exit
    happens once. *)
Theorem with_block_is_left (w : World) :
  (forall msg, raises w SyncPlaywrightEnter = Some msg ->
     outcome w =
       Raised {| exn_call := SyncPlaywrightEnter; exn_msg := msg |} /\
     trace (final w) = [SyncPlaywrightEnter] /\
     browser (final w) = NotLaunched) /\
  (raises w SyncPlaywrightEnter = None ->
     exists inside,
       trace (final w) =
         (SyncPlaywrightEnter :: inside ++ [SyncPlaywrightExit])%list /\
       ~ In SyncPlaywrightExit inside /\ ~ In SyncPlaywrightEnter inside).
Proof.
  unfold outcome, final. split.
  - intros msg H1. rewrite (run_no_driver w msg H1). simpl. auto.
  - intros H1.
    destruct (raises w ChromiumLaunch) as [m |] eqn:H2.
    { rewrite (run_no_browser w m H1 H2). simpl.
      exists [ChromiumLaunch].
      split; [reflexivity | split; intros Hin; simpl in Hin;
                            intuition discriminate]. }
    destruct (raises w NewPage) as [m |] eqn:H3.
    { rewrite (run_no_page w m H1 H2 H3). simpl.
      exists [ChromiumLaunch; NewPage].
      split; [reflexivity | split; intros Hin; simpl in Hin;
                            intuition discriminate]. }
    pose proof (trace_NoDup w) as Hnd. unfold final in Hnd.
    rewrite (run_acquired w (conj H1 (conj H2 H3))) in Hnd |- *.
    cbn [snd trace] in Hnd |- *.
    generalize dependent
      (calls_of (executed w (plan w) ++ executed w (handled w))).
    intros cs Hnd.
    exists ([ChromiumLaunch; NewPage] ++ cs ++ [BrowserClose])%list.
    split; [simpl; rewrite <- app_assoc; reflexivity |].
    simpl in Hnd. apply NoDup_cons_iff in Hnd as [Henter Hnd].
    split.
    + intros Hin.
      assert (Hnd' : NoDup (([ChromiumLaunch; NewPage] ++ cs ++
                             [BrowserClose]) ++ [SyncPlaywrightExit])%list)
        by (simpl; rewrite <- app_assoc; exact Hnd).
      apply NoDup_remove_2 in Hnd'. rewrite app_nil_r in Hnd'. auto.
    + intros Hin. apply Henter. simpl in Hin |- *.
      rewrite !in_app_iff in *. simpl in *. intuition.
Qed.

Lemma with_block_is_left_witness :
  exists inside,
    trace (final no_browser) =
      (SyncPlaywrightEnter :: inside ++ [SyncPlaywrightExit])%list.
Proof.
  destruct (proj2 (with_block_is_left no_browser) eq_refl)
    as (inside & H & _).
  exists inside. exact H.
Defined.

(** X3.  The [finally] clause (lines 69-70).  When [browser.close()]
    raises, that exception is the one the caller gets and the exit
    status is 1, also when every step succeeded and the success
    screenshot is on disk, and also when the handler's screenshot had
    raised before (that exception is then lost).  The browser still
    ends closed, by the exit of the [with] block. *)
Theorem close_failure_wins (w : World) (msg : string) :
  acquired w ->
  raises w BrowserClose = Some msg ->
  outcome w = Raised {| exn_call := BrowserClose; exn_msg := msg |} /\
  main w = 1%Z /\
  browser (final w) = Closed /\
  (steps_succeed w -> files (final w) = [success_path]).
Proof.
  intros Hs Hclose. unfold main, outcome, final.
  rewrite (run_acquired w Hs). cbn [fst snd browser files].
  unfold verdict. rewrite Hclose. repeat split.
  intros Hok. apply steps_succeed_plan in Hok.
  rewrite shots_app, plan_shots, Hok, (handled_success w Hok). reflexivity.
Qed.

Lemma close_failure_wins_witness :
  outcome close_fails =
    Raised {| exn_call := BrowserClose; exn_msg := "Connection closed" |} /\
  files (final close_fails) = [success_path].
Proof.
  destruct (close_failure_wins close_fails "Connection closed"
              (conj eq_refl (conj eq_refl eq_refl)) eq_refl)
    as (H1 & _ & _ & H2).
  exact (conj H1 (H2 eq_refl)).
Defined.

(** X4.  Lines 46-47.  The fallback is chosen by visibility alone: when
    the first [input[value='1']] is visible and filling it raises, the
    panel inputs are not tried.  The run goes to the handler: no value
    is set, the console shows the five progress lines and the error
    line, and the error screenshot is taken. *)
Theorem fill_failure_is_fatal (w : World) (e : exn) :
  acquired w ->
  step_failure w e ->
  exn_call e = Fill width_input "100" ->
  visible w width_input = true /\
  values (final w) = [] /\
  ~ In (All panel_inputs) (trace (final w)) /\
  console (final w) =
    ["Navigating to app..."; "Clicking Batch Process tab...";
     "Uploading image..."; "Waiting for image to appear in list...";
     "Checking settings panel..."; ("Error: " ++ exn_msg e)%string] /\
  In (Screenshot error_path None) (trace (final w)).
Proof.
  intros Hs Hf Hcall. apply step_failure_plan in Hf.
  assert (Hshape :
    visible w width_input = true /\
    failure w before_width = None /\
    width_plan w = [Do (IsVisible width_input); Do (Fill width_input "100");
                    Say "Changed width to 100"] /\
    raises w (IsVisible width_input) = None /\
    raises w (Fill width_input "100") = Some (exn_msg e)).
  { destruct (plan_failure_cases w e Hf) as [Hb | [(Hb & Hw) | (_ & _ & Ha)]].
    - apply failure_in in Hb. rewrite Hcall in Hb. simpl in Hb.
      exfalso. intuition discriminate.
    - destruct (width_plan_cases w)
        as [(Hv & Hp) | [(_ & _ & Hp) | (_ & _ & Hp)]]; rewrite Hp in Hw.
      + simpl in Hw.
        destruct (raises w (IsVisible width_input));
          [injection Hw as <-; discriminate |].
        destruct (raises w (Fill width_input "100")); [| discriminate].
        injection Hw as <-. auto.
      + apply failure_in in Hw. rewrite Hcall in Hw. simpl in Hw.
        exfalso. intuition discriminate.
      + apply failure_in in Hw. rewrite Hcall in Hw. simpl in Hw.
        exfalso. intuition discriminate.
    - apply failure_in in Ha. rewrite Hcall in Ha. simpl in Ha.
      exfalso. intuition discriminate. }
  destruct Hshape as (Hv & Hb & Hp & Hvis & Hfill).
  destruct (handled_failure w e Hf) as (Hh & _).
  assert (Hex : executed w (plan w) =
                (before_width ++ [Do (IsVisible width_input);
                                  Do (Fill width_input "100")])%list).
  { unfold plan. rewrite executed_app, Hb, executed_app, Hp.
    destruct (failure_none w _ Hb) as [-> _].
    simpl. rewrite Hvis, Hfill. reflexivity. }
  unfold final. rewrite (run_acquired w Hs). cbn [snd values trace console].
  rewrite plan_fills, Hb, Hp, Hex, Hh. simpl. rewrite Hvis, Hfill.
  repeat apply conj; try reflexivity; try assumption.
  - intros Hin. simpl in Hin. intuition discriminate.
  - simpl. tauto.
Qed.

Lemma fill_failure_is_fatal_witness :
  values (final fill_fails) = [] /\
  ~ In (All panel_inputs) (trace (final fill_fails)).
Proof.
  destruct (fill_failure_is_fatal fill_fails
              {| exn_call := Fill width_input "100";
                 exn_msg := "Timeout 30000ms exceeded" |}
              (conj eq_refl (conj eq_refl eq_refl)) eq_refl eq_refl)
    as (_ & H1 & H2 & _).
  exact (conj H1 H2).
Defined.

(** X5.  Lines 61-68.  When everything up to the success screenshot
    works and that screenshot raises, the run takes a second screenshot,
    the error one, and these are the only two screenshot calls.  The
    line about the saved screenshot is not printed.  What the steps did
    before stays done: the fixture is uploaded and, if the width input
    was visible, its value is set. *)
Theorem success_screenshot_failure (w : World) (e : exn) :
  acquired w ->
  step_failure w e ->
  exn_call e = Screenshot success_path None ->
  filter is_screenshot (trace (final w)) =
    [Screenshot success_path None; Screenshot error_path None] /\
  files (final w) =
    match raises w (Screenshot error_path None) with
    | None => [error_path]
    | Some _ => []
    end /\
  ~ In saved_line (console (final w)) /\
  uploads (final w) = [upload_entry] /\
  (visible w width_input = true ->
   values (final w) = [(width_input, "100")]).
Proof.
  intros Hs Hf Hcall. apply step_failure_plan in Hf.
  assert (Hshape :
    failure w before_width = None /\ failure w (width_plan w) = None /\
    raises w (Sleep 1) = None /\
    raises w (Screenshot success_path None) = Some (exn_msg e)).
  { destruct (plan_failure_cases w e Hf) as [Hb | [(Hb & Hw) | (Hb & Hw & Ha)]].
    - apply failure_in in Hb. rewrite Hcall in Hb. simpl in Hb.
      exfalso. intuition discriminate.
    - apply failure_in in Hw. rewrite Hcall in Hw. exfalso.
      destruct (width_plan_cases w)
        as [(_ & Hp) | [(_ & _ & Hp) | (_ & _ & Hp)]]; rewrite Hp in Hw;
        simpl in Hw; intuition discriminate.
    - simpl in Ha.
      destruct (raises w (Sleep 1));
        [injection Ha as <-; discriminate |].
      destruct (raises w (Screenshot success_path None)); [| discriminate].
      injection Ha as <-. auto. }
  destruct Hshape as (Hb & Hw & Hsleep & Hshot).
  destruct (handled_failure w e Hf) as (Hh & Hhs & _).
  destruct (failure_none w _ Hb) as [Hbe Hbr].
  destruct (failure_none w _ Hw) as [Hwe Hwr].
  assert (Hex : executed w (plan w) =
                (before_width ++ width_plan w ++
                 [Do (Sleep 1); Do (Screenshot success_path None)])%list).
  { unfold plan. rewrite executed_app, Hb, executed_app, Hw, Hbe, Hwe.
    simpl. rewrite Hsleep, Hshot. reflexivity. }
  assert (Hret : returned w (plan w) =
                 (calls_of before_width ++ calls_of (width_plan w) ++
                  [Sleep 1])%list).
  { unfold plan. rewrite returned_app, Hb, returned_app, Hw, Hbr, Hwr.
    simpl. rewrite Hsleep, Hshot. reflexivity. }
  unfold final. rewrite (run_acquired w Hs).
  cbn [snd values trace console files uploads].
  rewrite shots_app, plan_shots, Hf, Hhs, Hex, Hh, Hret.
  destruct (width_plan_cases w)
    as [(Hv & Hp) | [(Hv & _ & Hp) | (Hv & _ & Hp)]]; rewrite Hp;
    (split; [reflexivity |]; split; [reflexivity |];
     split; [intros Hin; simpl in Hin; intuition discriminate |];
     split; [reflexivity |];
     intros Hv'; try congruence; reflexivity).
Qed.

Lemma success_screenshot_failure_witness :
  files (final no_success_file) = [error_path] /\
  uploads (final no_success_file) = [upload_entry] /\
  values (final no_success_file) = [(width_input, "100")].
Proof.
  destruct (success_screenshot_failure no_success_file
              {| exn_call := Screenshot success_path None;
                 exn_msg := "EACCES" |}
              (conj eq_refl (conj eq_refl eq_refl)) eq_refl eq_refl)
    as (_ & H1 & _ & H2 & H3).
  exact (conj H1 (conj H2 (H3 eq_refl))).
Defined.

Lemma executed_lines_incl (w : World) (l : list action) :
  incl (lines_of (executed w l)) (lines_of l).
Proof.
  destruct (executed_prefix w l) as [rest H].
  rewrite H at 2. rewrite lines_of_app. apply incl_appl, incl_refl.
Qed.

(** A plan that fails has not printed the line about the saved file. *)
Lemma failed_plan_not_saved (w : World) (e : exn) :
  failure w (plan w) = Some e ->
  ~ In saved_line (lines_of (executed w (plan w))).
Proof.
  intros Hf. unfold plan in *.
  rewrite failure_app in Hf.
  rewrite executed_app, lines_of_app, in_app_iff. intros [H | H].
  { apply executed_lines_incl in H. simpl in H. intuition discriminate. }
  destruct (failure w before_width); [contradiction |].
  rewrite failure_app in Hf.
  rewrite executed_app, lines_of_app, in_app_iff in H. destruct H as [H | H].
  { apply executed_lines_incl in H.
    destruct (width_plan_cases w)
      as [(_ & Hp) | [(_ & _ & Hp) | (_ & _ & Hp)]]; rewrite Hp in H;
      simpl in H; intuition discriminate. }
  destruct (failure w (width_plan w)); [contradiction |].
  simpl in Hf, H.
  destruct (raises w (Sleep 1)); [simpl in H; contradiction |].
  destruct (raises w (Screenshot success_path None));
    [simpl in H; contradiction | discriminate].
Qed.

(** X6.  The console tells which file was written (lines 63-64 and
    67-68).  In every run the line "Screenshot saved to
    verification/batch_tab_verified.png" is printed exactly when that
    file has been written; and when the error file has been written, a
    step has failed and its error line, "Error: " followed by the text
    of the exception, is on the console. *)
Theorem console_tells_the_file (w : World) :
  (In saved_line (console (final w)) <-> files (final w) = [success_path]) /\
  (files (final w) = [error_path] ->
   exists e, step_failure w e /\
             In ("Error: " ++ exn_msg e)%string (console (final w))).
Proof.
  destruct (run_setup w) as [Hs | (e & _ & Hc & Hfiles & _)].
  2:{ rewrite Hc, Hfiles. split; [split |]; intros H;
        try contradiction; discriminate. }
  unfold final. rewrite (run_acquired w Hs). cbn [snd console files].
  rewrite shots_app, plan_shots, lines_of_app.
  destruct (failure w (plan w)) as [e |] eqn:Hf.
  - destruct (handled_failure w e Hf) as (Hh & Hhs & _).
    rewrite Hh, Hhs.
    pose proof (failed_plan_not_saved w e Hf) as Hns.
    apply step_failure_plan in Hf.
    generalize dependent (lines_of (executed w (plan w))). intros ls Hns.
    simpl. split; [split |].
    + rewrite in_app_iff. intros [H | H]; [contradiction |].
      simpl in H. exfalso. intuition discriminate.
    + destruct (raises w (Screenshot error_path None)); discriminate.
    + intros _. exists e. split; [exact Hf |].
      rewrite in_app_iff. simpl. auto.
  - rewrite (handled_success w Hf). destruct (failure_none w _ Hf) as [-> _].
    simpl executed. cbn [lines_of flat_map shots]. rewrite !app_nil_r.
    split; [split; [reflexivity |] | discriminate].
    intros _. unfold plan. rewrite !lines_of_app, !in_app_iff.
    right. right. simpl. auto.
Qed.

Lemma console_tells_the_file_witness :
  exists e, step_failure unreachable e /\
            In ("Error: " ++ exn_msg e)%string (console (final unreachable)).
Proof.
  exact (proj2 (console_tells_the_file unreachable) eq_refl).
Defined.

(** X7.  The upload (line 27) comes before everything that depends on
    it.  A run uploads nothing or exactly the fixture [test_image.png]
    into [input[type='file']], once; and a run that has set a width
    value, or has written the success screenshot, has uploaded the
    fixture. *)
Theorem upload_comes_first (w : World) :
  (uploads (final w) = [] \/ uploads (final w) = [upload_entry]) /\
  (values (final w) <> [] -> uploads (final w) = [upload_entry]) /\
  (files (final w) = [success_path] -> uploads (final w) = [upload_entry]).
Proof.
  unfold final.
  destruct (raises w SyncPlaywrightEnter) as [m |] eqn:H1.
  { rewrite (run_no_driver w m H1). simpl.
    split; [auto | split; intros H; [congruence | discriminate]]. }
  destruct (raises w ChromiumLaunch) as [m |] eqn:H2.
  { rewrite (run_no_browser w m H1 H2). simpl.
    split; [auto | split; intros H; [congruence | discriminate]]. }
  destruct (raises w NewPage) as [m |] eqn:H3.
  { rewrite (run_no_page w m H1 H2 H3). simpl.
    split; [auto | split; intros H; [congruence | discriminate]]. }
  rewrite (run_acquired w (conj H1 (conj H2 H3))).
  cbn [snd values files uploads].
  rewrite shots_app, plan_shots, plan_fills.
  assert (Hrest : sends (returned w (width_plan w ++ after_width)) = []).
  { apply sends_none, returned_forallb.
    destruct (width_plan_cases w)
      as [(_ & Hp) | [(_ & _ & Hp) | (_ & _ & Hp)]]; rewrite Hp; reflexivity. }
  assert (Hsend : sends (returned w (plan w)) =
                  sends (returned w before_width)).
  { unfold plan. rewrite returned_app, sends_app.
    destruct (failure w before_width); [apply app_nil_r |].
    rewrite Hrest. apply app_nil_r. }
  rewrite Hsend. clear Hsend Hrest.
  destruct (failure w before_width) as [e |] eqn:Hb.
  - assert (Hf : failure w (plan w) = Some e)
      by (unfold plan; rewrite failure_app, Hb; reflexivity).
    destruct (handled_failure w e Hf) as (_ & Hhs & _).
    rewrite Hf, Hhs. repeat apply conj.
    + clear. unfold before_width. simpl.
      repeat match goal with
             | |- context [raises w ?c] => destruct (raises w c)
             end; simpl; auto.
    + intros H. congruence.
    + destruct (raises w (Screenshot error_path None)); discriminate.
  - destruct (failure_none w _ Hb) as [_ ->].
    repeat apply conj; intros; auto.
Qed.

Lemma upload_comes_first_witness :
  uploads (final (calm false 0)) = [upload_entry].
Proof.
  exact (proj2 (proj2 (upload_comes_first (calm false 0))) eq_refl).
Defined.

(** X8.  Lines 45-56.  The only value the script ever passes to [fill]
    is ["100"], and the only locators it fills through are
    [page.locator("input[value='1']").first] and entry 0 of the list
    that [all()] returns for [.space-y-1 input[type='number']]; it
    never fills through entry 1 or a later entry of that list, however
    long the list is.  (Which element of the page a locator resolves
    to is the browser's matter; the two selectors can match the same
    element.) *)
Theorem only_100_is_written (w : World) :
  forall l v, In (l, v) (values (final w)) ->
    v = "100" /\ (l = width_input \/ l = Nth panel_inputs 0).
Proof.
  intros l v. destruct (run_setup w) as [Hs | (e & _ & _ & _ & -> & _)];
    [| intros []].
  unfold final. rewrite (run_acquired w Hs). cbn [snd values].
  rewrite plan_fills. destruct (failure w before_width); [intros [] |].
  destruct (width_plan_cases w)
    as [(_ & Hp) | [(_ & _ & Hp) | (_ & _ & Hp)]]; rewrite Hp; simpl;
    repeat match goal with
           | |- context [raises w ?c] => destruct (raises w c); simpl
           end;
    intros Hin; try contradiction;
    destruct Hin as [Hin | []]; injection Hin as <- <-; auto.
Qed.

Lemma only_100_is_written_witness :
  (In (Nth panel_inputs 0, "100") (values (final (calm false 5))) /\
   ("100" = "100" /\
    (Nth panel_inputs 0 = width_input \/
     Nth panel_inputs 0 = Nth panel_inputs 0))) /\
  ~ In (Nth panel_inputs 1, "100") (values (final (calm false 5))).
Proof.
  assert (Hin : In (Nth panel_inputs 0, "100")
                   (values (final (calm false 5))))
    by (vm_compute; auto).
  split.
  - exact (conj Hin (only_100_is_written (calm false 5) _ _ Hin)).
  - intros H.
    destruct (only_100_is_written (calm false 5) _ _ H) as [_ [H1 | H1]];
      discriminate H1.
Defined.
